(** * toonkor_collector2 / comic-translate: consumers and file handler

    A shallow embedding of

      - [src/toonkor_collector2/consumers.py]: the two websocket consumers
        ([QtConsumer], [DownloadTranslateConsumer]);
      - [src/modules/utils/file_handler.py]: [FileHandler].

    Python values that come out of [json.loads] are modelled by the type
    [json]; a Python [str] is held as the string of its UTF-8 bytes.  Python
    exceptions are modelled by an error monad over an explicit world, so the
    effects a method performed before it raised remain visible. *)

From Stdlib Require Import ZArith String Ascii List DecimalString.
From stdpp Require Import base tactics option list countable gmap strings.

Local Open Scope string_scope.
Local Open Scope Z_scope.
Local Open Scope list_scope.

(** ** Values produced by [json.loads] *)

(** [json.loads] yields [None], [bool], [int], [str], [list] and [dict]
    objects ([float] is left out: no method below computes with one).  A
    [dict] keeps its insertion order, hence an association list. *)
#[warnings="-register-all"]
Inductive json : Type :=
  | JNull
  | JBool (b : bool)
  | JInt (n : Z)
  | JStr (s : string)
  | JList (l : list json)
  | JDict (d : list (string * json)).

(** Induction principle that reaches below lists and dictionaries. *)
Lemma json_nested_ind (P : json → Prop) :
  P JNull →
  (∀ b, P (JBool b)) →
  (∀ n, P (JInt n)) →
  (∀ s, P (JStr s)) →
  (∀ l, Forall P l → P (JList l)) →
  (∀ d, Forall (λ kv, P kv.2) d → P (JDict d)) →
  ∀ j, P j.
Proof.
  intros Hnull Hbool Hint Hstr Hlist Hdict.
  fix IH 1. intros [ | b | n | s | l | d].
  - exact Hnull.
  - apply Hbool.
  - apply Hint.
  - apply Hstr.
  - apply Hlist. induction l as [|x l IHl]; constructor; [apply IH | exact IHl].
  - apply Hdict. induction d as [|[k v] d IHd]; constructor; [apply IH | exact IHd].
Qed.

(** Encoding into stdpp's generic trees, from which equality and
    countability of [json] follow. *)
Definition json_leaf : Type := (unit + bool + Z + string)%type.

Fixpoint json_to_tree (j : json) : gen_tree json_leaf :=
  match j with
  | JNull => GenLeaf (inl (inl (inl ())))
  | JBool b => GenLeaf (inl (inl (inr b)))
  | JInt n => GenLeaf (inl (inr n))
  | JStr s => GenLeaf (inr s)
  | JList l => GenNode 0 (map json_to_tree l)
  | JDict d =>
      GenNode 1 (map (λ kv, GenNode 2 [GenLeaf (inr kv.1); json_to_tree kv.2]) d)
  end.

Fixpoint json_of_tree (t : gen_tree json_leaf) : option json :=
  match t with
  | GenLeaf (inl (inl (inl _))) => Some JNull
  | GenLeaf (inl (inl (inr b))) => Some (JBool b)
  | GenLeaf (inl (inr n)) => Some (JInt n)
  | GenLeaf (inr s) => Some (JStr s)
  | GenNode 0 ts => JList <$> mapM json_of_tree ts
  | GenNode 1 ts =>
      JDict <$> mapM (λ t,
        match t with
        | GenNode 2 [GenLeaf (inr k); tv] => pair k <$> json_of_tree tv
        | _ => None
        end) ts
  | _ => None
  end.

Lemma json_of_to_tree (j : json) : json_of_tree (json_to_tree j) = Some j.
Proof.
  induction j as [ | b | n | s | l IH | d IH] using json_nested_ind; try done.
  - cbn [json_to_tree json_of_tree].
    replace (mapM json_of_tree (map json_to_tree l)) with (Some l); [done|].
    symmetry. induction IH as [|x l Hx _ IHl]; [done|].
    cbn. rewrite Hx. cbn. rewrite IHl. done.
  - cbn [json_to_tree json_of_tree].
    match goal with |- JDict <$> ?m = _ => replace m with (Some d) end; [done|].
    symmetry. induction IH as [|[k v] d Hv _ IHd]; [done|].
    cbn in *. rewrite Hv. cbn. rewrite IHd. done.
Qed.

Global Instance json_eq_dec : EqDecision json.
Proof.
  intros x y.
  destruct (decide (json_to_tree x = json_to_tree y)) as [E|E].
  - left. apply (inj Some). rewrite <- !json_of_to_tree. by rewrite E.
  - right. by intros ->.
Defined.

Global Instance json_countable : Countable json :=
  inj_countable json_to_tree json_of_tree json_of_to_tree.

(** ** Python's operations on such values *)

(** The exceptions the modelled methods can raise. *)
Inductive exn : Type :=
  | KeyError (key : string)
  | TypeError
  | ValueError
  | IndexError
  | DoesNotExist
  | OSError.

Inductive result (A : Type) : Type :=
  | Ok (a : A)
  | Raise (e : exn).
Global Arguments Ok {A} a.
Global Arguments Raise {A} e.

Definition is_ok {A} (r : result A) : bool :=
  match r with Ok _ => true | Raise _ => false end.

(** A method is a function of the world it runs in; an exception keeps the
    world as it was when it was raised. *)
Definition M (W A : Type) : Type := W → result A * W.

Global Instance M_ret {W} : MRet (M W) := λ A a w, (Ok a, w).
Global Instance M_bind {W} : MBind (M W) := λ A B f m w,
  match m w with
  | (Ok a, w') => f a w'
  | (Raise e, w') => (Raise e, w')
  end.

Definition raise {W A} (e : exn) : M W A := λ w, (Raise e, w).

(** [for x in l: body(x)], where the body may update [x] in place: the
    updated elements are returned. *)
Fixpoint for_each {W A B} (body : A → M W B) (l : list A) : M W (list B) :=
  match l with
  | [] => mret []
  | x :: l' => y ← body x; ys ← for_each body l'; mret (y :: ys)
  end.

(** [d[k]] on a [dict]: the first binding of [k]. *)
Fixpoint dict_get (k : string) (d : list (string * json)) : option json :=
  match d with
  | [] => None
  | (k', v) :: d' => if decide (k = k') then Some v else dict_get k d'
  end.

(** [d[k] = v] on a [dict]: an existing key keeps its place, a new key goes
    to the end. *)
Fixpoint dict_set (k : string) (v : json) (d : list (string * json))
    : list (string * json) :=
  match d with
  | [] => [(k, v)]
  | (k', v') :: d' =>
      if decide (k = k') then (k, v) :: d' else (k', v') :: dict_set k v d'
  end.

(** [v[k]] for a [str] key [k]: [KeyError] on a [dict] without the key,
    [TypeError] on every other kind of value. *)
Definition py_getitem {W} (v : json) (k : string) : M W json :=
  match v with
  | JDict d =>
      match dict_get k d with
      | Some x => mret x
      | None => raise (KeyError k)
      end
  | _ => raise TypeError
  end.

(** [v[k] = x] for a [str] key [k]; yields the updated object. *)
Definition py_setitem {W} (v : json) (k : string) (x : json) : M W json :=
  match v with
  | JDict d => mret (JDict (dict_set k x d))
  | _ => raise TypeError
  end.

(** Truth value of an object, as tested by [if]. *)
Definition py_truthy (v : json) : bool :=
  match v with
  | JNull => false
  | JBool b => b
  | JInt n => negb (n =? 0)
  | JStr s => negb (String.eqb s "")
  | JList l => match l with [] => false | _ => true end
  | JDict d => match d with [] => false | _ => true end
  end.

(** [v == s] for a [str] literal [s]. *)
Definition py_eq_str (v : json) (s : string) : bool :=
  match v with
  | JStr s' => String.eqb s' s
  | _ => false
  end.

(** The characters of a [str] held as UTF-8: a byte [10xxxxxx] continues
    the character begun before it. *)
Definition is_continuation_byte (c : ascii) : bool :=
  let n := N_of_ascii c in ((128 <=? n) && (n <? 192))%N.

Fixpoint utf8_chars_aux (s : string) : string * list string :=
  match s with
  | EmptyString => (EmptyString, [])
  | String c s' =>
      let '(pending, chars) := utf8_chars_aux s' in
      if is_continuation_byte c then (String c pending, chars)
      else (EmptyString, String c pending :: chars)
  end.

Definition utf8_chars (s : string) : list string :=
  let '(pending, chars) := utf8_chars_aux s in
  match pending with
  | EmptyString => chars
  | _ => pending :: chars
  end.

(** [len(v)]. *)
Definition py_len {W} (v : json) : M W Z :=
  match v with
  | JStr s => mret (Z.of_nat (length (utf8_chars s)))
  | JList l => mret (Z.of_nat (length l))
  | JDict d => mret (Z.of_nat (length d))
  | _ => raise TypeError
  end.

(** The objects [for x in v] runs through: the elements of a [list], the
    keys of a [dict], the characters of a [str]. *)
Definition py_iter {W} (v : json) : M W (list json) :=
  match v with
  | JStr s => mret (JStr <$> utf8_chars s)
  | JList l => mret l
  | JDict d => mret ((λ kv, JStr kv.1) <$> d)
  | _ => raise TypeError
  end.

(** The object [v] after a loop that updated its elements in place: only
    the elements of a [list] are objects that can be updated. *)
Definition py_updated (v : json) (items : list json) : json :=
  match v with
  | JList _ => JList items
  | _ => v
  end.

(** ** The collaborators of the consumers *)

(** Modelled from the spec: [StatusChoices] is imported from
    [toonkor_collector2.models], which is not among the sources.  The spec
    (section 3) gives its members. *)
Inductive StatusChoices : Type := NONE | LOADING | READY | REMOVING | ERROR.

(** Modelled from the spec: the [Chapter] model is imported from
    [toonkor_collector2.models] too.  The spec (section 3) identifies a
    chapter by (series-id, index) and gives it the two status fields. *)
Record Chapter : Type := mkChapter {
  chapter_manhwa_id : string;
  chapter_index : Z;
  download_status : StatusChoices;
  translation_status : StatusChoices;
}.

(** What a consumer does to the world outside it, in the order it does it. *)
Inductive event : Type :=
  | GroupAdd (group channel : string)
  | GroupDiscard (group channel : string)
  | Accept (channel : string)
  | Send (channel : string) (payload : json)
  | StoreSave (row : Chapter)
  | CacheSet (manhwa_id index : json) (field value : string)
  | GroupSend (group : string) (message : json)
  | DownloaderAppend (manhwa_id group_name : string) (task chapters : json)
  | CleanerAppend (manhwa_id group_name : string)
      (chapters remove_choices : json).

(** The persisted store (for each chapter, its [download_status] and its
    [translation_status]), the Status Cache and the log of all effects
    (oldest first). *)
Record world : Type := mkWorld {
  store : gmap (string * Z) (StatusChoices * StatusChoices);
  cache : gmap (json * json * string) string;
  log : list event;
}.

Definition emit (e : event) : M world unit := λ w,
  (Ok (), mkWorld (store w) (cache w) (log w ++ [e])).

(** [channel_layer.group_send(group, message)]. *)
Definition group_send (group : string) (message : json) : M world unit :=
  emit (GroupSend group message).

(** Modelled from the spec: [update_cached_chapter] is imported from
    [toonkor_collector2.api], which is not among the sources.  It is the
    [set(series-id, index, field, status)] of the Status Cache (spec 4.1);
    the arguments are stored as they are passed. *)
Definition update_cached_chapter (manhwa_id index : json)
    (field value : string) : M world unit := λ w,
  (Ok (), mkWorld (store w) (<[(manhwa_id, index, field) := value]> (cache w))
            (log w ++ [CacheSet manhwa_id index field value])).

(** Modelled from the spec: [Chapter.objects.get(manhwa_id=.., index=..)],
    the [get(series-id, index)] of the persisted store (spec 6).  Rows are
    keyed by a [str] series-id; another kind of object names no row. *)
Definition objects_get (manhwa_id : json) (index : Z) : M world Chapter :=
  λ w,
  match manhwa_id with
  | JStr s =>
      match store w !! (s, index) with
      | Some (download, translation) =>
          (Ok (mkChapter s index download translation), w)
      | None => (Raise DoesNotExist, w)
      end
  | _ => (Raise DoesNotExist, w)
  end.

(** Modelled from the spec: [chapter_obj.save()], the [save(Chapter)] of the
    persisted store (spec 6). *)
Definition save (row : Chapter) : M world unit := λ w,
  (Ok (),
   mkWorld (<[(chapter_manhwa_id row, chapter_index row) :=
                (download_status row, translation_status row)]> (store w))
     (cache w) (log w ++ [StoreSave row])).

(** [downloader.append] and [cleaner.append] hand the batch to the
    asynchronous executors ([toonkor_collector2.downloader] and
    [toonkor_collector2.cleaner], not among the sources): only the call is
    recorded. *)
Definition downloader_append (manhwa_id group_name : string)
    (task chapters : json) : M world unit :=
  emit (DownloaderAppend manhwa_id group_name task chapters).

Definition cleaner_append (manhwa_id group_name : string)
    (chapters remove_choices : json) : M world unit :=
  emit (CleanerAppend manhwa_id group_name chapters remove_choices).

(** The Status Cache writes, the broadcasts and the submissions to the
    executors among some events. *)
Definition is_cache_set (e : event) : bool :=
  match e with CacheSet _ _ _ _ => true | _ => false end.

Definition broadcasts (es : list event) : list (string * json) :=
  omap (λ e, match e with GroupSend g m => Some (g, m) | _ => None end) es.

Definition is_enqueue (e : event) : bool :=
  match e with
  | DownloaderAppend _ _ _ _ | CleanerAppend _ _ _ _ => true
  | _ => false
  end.

Definition enqueued (es : list event) : list event := filter is_enqueue es.

(** The Status Cache after the writes among [es]. *)
Definition cache_after (es : list event)
    (c : gmap (json * json * string) string) : gmap (json * json * string) string :=
  foldl (λ c e,
    match e with
    | CacheSet m i f v => <[(m, i, f) := v]> c
    | _ => c
    end) c es.

(** The group of a series: [f"download_translate_{encode_name(..)}"]. *)
Definition group_prefix : string := "download_translate_".

Module QtConsumer.
Section QtConsumer.
(** [encode_name] is imported from [toonkor_collector2.models] and [int]
    applied to a [str] is Python's parser: both are taken as given. *)
Variable encode_name : string → string.
Variable int_of_str : string → option Z.

Record t : Type := mk { group_name : string; channel_name : string }.

Definition connect (channel : string) : M world t :=
  let group := "qt" in
  emit (GroupAdd group channel);;
  emit (Accept channel);;
  mret (mk group channel).

Definition send_translation_request (self : t) (event : json)
    : M world unit :=
  to_translate ← py_getitem event "to_translate";
  emit (Send (channel_name self) to_translate).

(** [int(v)]. *)
Definition py_int (v : json) : M world Z :=
  match v with
  | JInt n => mret n
  | JBool b => mret (if b then 1 else 0)
  | JStr s =>
      match int_of_str s with
      | Some n => mret n
      | None => raise ValueError
      end
  | _ => raise TypeError
  end.

(** [f"download_translate_{encode_name(toonkor_id)}"]; [encode_name] is
    applied to series-ids, which are [str] objects. *)
Definition series_group (toonkor_id : json) : M world string :=
  match toonkor_id with
  | JStr s => mret (group_prefix +:+ encode_name s)
  | _ => raise TypeError
  end.

(** [data] is [json.loads(text_data)]. *)
Definition receive (self : t) (data : json) : M world unit :=
  toonkor_id ← py_getitem data "toonkor_id";
  c ← py_getitem data "chapter";
  chapter ← py_int c;
  chapter_obj ← objects_get toonkor_id chapter;
  let chapter_obj :=
    mkChapter (chapter_manhwa_id chapter_obj) (chapter_index chapter_obj)
      (download_status chapter_obj) READY in
  save chapter_obj;;
  update_cached_chapter toonkor_id (JInt chapter) "translation_status" "READY";;
  group ← series_group toonkor_id;
  progress ← py_getitem data "progress";
  group_send group
    (JDict [("type", JStr "send_progress");
            ("chapters",
             JList [JDict [("index", JInt chapter);
                           ("status", JStr "Translated")]]);
            ("progress", progress)]).

Definition disconnect (self : t) : M world unit :=
  emit (GroupDiscard (group_name self) (channel_name self)).
End QtConsumer.
End QtConsumer.

Module DownloadTranslateConsumer.
Section DownloadTranslateConsumer.
Variable encode_name : string → string.

Record t : Type := mk {
  manhwa_id : string;
  group_name : string;
  channel_name : string;
}.

(** [toonkor_id] is [self.scope["url_route"]["kwargs"]["toonkor_id"]]. *)
Definition connect (channel : string) (toonkor_id : string) : M world t :=
  let manhwa_id := "/" +:+ toonkor_id in
  let group_name := group_prefix +:+ encode_name manhwa_id in
  emit (GroupAdd group_name channel);;
  emit (Accept channel);;
  mret (mk manhwa_id group_name channel).

Definition run_download_translate (self : t) (task chapters : json)
    : M world unit :=
  n ← py_len chapters;
  let progress := JDict [("current", JInt 0); ("total", JInt n)] in
  items ← py_iter chapters;
  items ← for_each (λ chapter,
    chapter ← py_setitem chapter "download_status" (JStr "LOADING");
    index ← py_getitem chapter "index";
    update_cached_chapter (JStr (manhwa_id self)) index
      "download_status" "LOADING";;
    if py_eq_str task "download_translate" then
      chapter ← py_setitem chapter "translation_status" (JStr "LOADING");
      index ← py_getitem chapter "index";
      update_cached_chapter (JStr (manhwa_id self)) index
        "translation_status" "LOADING";;
      mret chapter
    else mret chapter) items;
  let chapters := py_updated chapters items in
  group_send (group_name self)
    (JDict [("type", JStr "send_progress");
            ("chapters", chapters);
            ("progress", progress)]);;
  downloader_append (manhwa_id self) (group_name self) task chapters.

Definition run_remove (self : t) (chapters remove_choices : json)
    : M world unit :=
  items ← py_iter chapters;
  items ← for_each (λ chapter,
    downloaded ← py_getitem remove_choices "downloaded";
    chapter ←
      (if py_truthy downloaded then
         chapter ← py_setitem chapter "download_status" (JStr "REMOVING");
         index ← py_getitem chapter "index";
         update_cached_chapter (JStr (manhwa_id self)) index
           "download_status" "REMOVING";;
         mret chapter
       else mret chapter);
    translated ← py_getitem remove_choices "translated";
    if py_truthy translated then
      chapter ← py_setitem chapter "translation_status" (JStr "REMOVING");
      index ← py_getitem chapter "index";
      update_cached_chapter (JStr (manhwa_id self)) index
        "remove_status" "REMOVING";;
      mret chapter
    else mret chapter) items;
  let chapters := py_updated chapters items in
  group_send (group_name self)
    (JDict [("type", JStr "send_progress");
            ("chapters", chapters);
            ("progress", JDict [])]);;
  cleaner_append (manhwa_id self) (group_name self) chapters remove_choices.

(** [data] is [json.loads(text_data)]. *)
Definition receive (self : t) (data : json) : M world unit :=
  task ← py_getitem data "task";
  chapters ← py_getitem data "chapters";
  if py_eq_str task "remove" then
    remove_choices ← py_getitem data "remove_choices";
    run_remove self chapters remove_choices
  else run_download_translate self task chapters.

Definition send_progress (self : t) (event : json) : M world unit :=
  emit (Send (channel_name self) event).

Definition disconnect (self : t) : M world unit :=
  emit (GroupDiscard (group_name self) (channel_name self)).
End DownloadTranslateConsumer.
End DownloadTranslateConsumer.

(** ** [str] and [os.path] operations used by the file handler *)

Definition is_ascii_char (c : ascii) : bool := (N_of_ascii c <? 128)%N.

(** [c in string.printable]: digits, letters, punctuation and the six
    whitespace characters, that is the codes 32..126 and 9..13. *)
Definition is_printable_char (c : ascii) : bool :=
  let n := N_of_ascii c in
  (((32 <=? n) && (n <=? 126)) || ((9 <=? n) && (n <=? 13)))%N.

Fixpoint string_forallb (f : ascii → bool) (s : string) : bool :=
  match s with
  | EmptyString => true
  | String c s' => f c && string_forallb f s'
  end.

Fixpoint string_filter (f : ascii → bool) (s : string) : string :=
  match s with
  | EmptyString => EmptyString
  | String c s' =>
      if f c then String c (string_filter f s') else string_filter f s'
  end.

(** [s.isascii()]: on the UTF-8 bytes, no byte above 127. *)
Definition isascii (s : string) : bool := string_forallb is_ascii_char s.

(** [''.join(c for c in s if c in string.printable)]: a character outside
    ASCII is made of bytes above 127 only, none of which is kept. *)
Definition printable_only (s : string) : string :=
  string_filter is_printable_char s.

Definition is_sep (c : ascii) : bool := Ascii.eqb c "/"%char.
Definition is_dot (c : ascii) : bool := Ascii.eqb c "."%char.

Definition string_is_empty (s : string) : bool :=
  match s with EmptyString => true | _ => false end.

(** [(p[:i], p[i:])] for [i = p.rfind('/') + 1]. *)
Fixpoint split_after_last_sep (p : string) : string * string :=
  match p with
  | EmptyString => (EmptyString, EmptyString)
  | String c p' =>
      let '(head, tail) := split_after_last_sep p' in
      if negb (string_is_empty head) then (String c head, tail)
      else if is_sep c then (String c EmptyString, tail)
      else (EmptyString, String c tail)
  end.

(** [s.rstrip('/')]. *)
Fixpoint rstrip_sep (s : string) : string :=
  match s with
  | EmptyString => EmptyString
  | String c s' =>
      let r := rstrip_sep s' in
      if string_is_empty r && is_sep c then EmptyString else String c r
  end.

(** [posixpath.dirname]. *)
Definition dirname (p : string) : string :=
  let head := (split_after_last_sep p).1 in
  if negb (string_is_empty head) && negb (string_forallb is_sep head)
  then rstrip_sep head else head.

(** [posixpath.basename]. *)
Definition basename (p : string) : string := (split_after_last_sep p).2.

(** [(s[:i], s[i:])] for [i = s.rfind('.')], when [s] has a dot. *)
Fixpoint split_at_last_dot (s : string) : option (string * string) :=
  match s with
  | EmptyString => None
  | String c s' =>
      match split_at_last_dot s' with
      | Some (stem, ext) => Some (String c stem, ext)
      | None => if is_dot c then Some (EmptyString, s) else None
      end
  end.

(** [posixpath.splitext]: the extension starts at the last dot of the last
    component, unless only dots come before it there. *)
Definition splitext (p : string) : string * string :=
  let '(head, tail) := split_after_last_sep p in
  match split_at_last_dot tail with
  | Some (stem, ext) =>
      if string_forallb is_dot stem then (p, EmptyString)
      else (head +:+ stem, ext)
  | None => (p, EmptyString)
  end.

Definition startswith_sep (s : string) : bool :=
  match s with String c _ => is_sep c | EmptyString => false end.

Fixpoint endswith_sep (s : string) : bool :=
  match s with
  | EmptyString => false
  | String c EmptyString => is_sep c
  | String _ s' => endswith_sep s'
  end.

(** [posixpath.join(a, b)]. *)
Definition join (a b : string) : string :=
  if startswith_sep b then b
  else if string_is_empty a || endswith_sep a then a +:+ b
  else a +:+ "/" +:+ b.

(** [str(n)] for a non-negative [int]. *)
Definition str_of_nat (n : nat) : string :=
  DecimalString.NilEmpty.string_of_uint (Nat.to_uint n).

(** [c.lower()] on an ASCII character; other bytes are kept. *)
Definition lower_char (c : ascii) : ascii :=
  let n := N_of_ascii c in
  if ((65 <=? n) && (n <=? 90))%N then ascii_of_N (n + 32) else c.

Fixpoint lower (s : string) : string :=
  match s with
  | EmptyString => EmptyString
  | String c s' => String (lower_char c) (lower s')
  end.

(** [s.endswith(suffix)] and [s.endswith((suffix, ...))]. *)
Fixpoint endswith (s suffix : string) : bool :=
  String.eqb s suffix ||
  match s with
  | EmptyString => false
  | String _ s' => endswith s' suffix
  end.

Definition endswith_any (s : string) (suffixes : list string) : bool :=
  existsb (endswith s) suffixes.

(** [enumerate(l)]. *)
Definition enumerate {A} (l : list A) : list (nat * A) := imap pair l.

(** [l[0]]. *)
Definition py_first {W A} (l : list A) : M W A :=
  match l with
  | x :: _ => mret x
  | [] => raise IndexError
  end.

(** How a call of [shutil.copy] ends: the copy is made, an [IOError] (that
    is, any [OSError]) is raised, or another exception is raised, such as
    the [ValueError] for a path with an embedded null character. *)
Inductive copy_outcome : Type :=
  | Copied
  | CopyIOError
  | CopyRaised (e : exn).

(** The call ended in a way [try: .. except IOError] deals with. *)
Definition copy_settles (outcome : copy_outcome) : bool :=
  match outcome with
  | CopyRaised _ => false
  | _ => true
  end.

Module FileHandler.
Section FileHandler.
(** The file system is outside the program.  [makedirs] stands for
    [os.makedirs(name, exist_ok=True)] on a non-empty name: it yields
    whether it completed ([false]: it raised an [OSError]) and the file
    system it left.  [copy] stands for [shutil.copy]: it yields how the call
    ended and the file system it left.  [mkdtemp] is
    [tempfile.mkdtemp(dir=..)] and [extract_archive] comes from the
    module [archives], which is not among the sources. *)
Variable fs : Type.
Variable makedirs : string → fs → bool * fs.
Variable copy : string → string → fs → copy_outcome * fs.
Variable mkdtemp : string → fs → option string * fs.
Variable extract_archive : string → string → fs → option (list string) * fs.

Record archive : Type := mkArchive {
  archive_path : string;
  extracted_images : list string;
  temp_dir : string;
}.

(** The attributes of the [FileHandler] object and the file system. *)
Record t : Type := mk {
  file_paths : list string;
  archive_info : list archive;
  disk : fs;
}.

Definition init (d : fs) : t := mk [] [] d.

(** [os.makedirs(name, exist_ok=True)]; the empty name is never a
    directory that exists or can be made: [FileNotFoundError]. *)
Definition os_makedirs (name : string) : M t unit := λ self,
  if string_is_empty name then (Raise OSError, self)
  else
    let '(done, d) := makedirs name (disk self) in
    (if done then Ok () else Raise OSError,
     mk (file_paths self) (archive_info self) d).

(** [shutil.copy(src, dst)] inside [try: .. except IOError: print(..)]:
    yields whether the copy was made; an exception that is no [IOError] is
    not caught and leaves the method. *)
Definition try_copy (src dst : string) : M t bool := λ self,
  let '(outcome, d) := copy src dst (disk self) in
  (match outcome with
   | Copied => Ok true
   | CopyIOError => Ok false
   | CopyRaised e => Raise e
   end,
   mk (file_paths self) (archive_info self) d).

Definition sanitize_and_copy_files (file_paths : list string)
    : M t (list string) :=
  for_each (λ '(index, image_path),
    if negb (isascii image_path) return M t string then
      let name := printable_only image_path in
      let dir_name := printable_only (dirname image_path) in
      os_makedirs dir_name;;
      let '(base, ext) :=
        if string_is_empty (splitext (basename name)).2
        then (EmptyString, (splitext (basename name)).1)
        else ((splitext (basename name)).1, (splitext (basename name)).2) in
      let sanitized_path := join dir_name (base +:+ str_of_nat index +:+ ext) in
      copied ← try_copy image_path sanitized_path;
      mret (if copied : bool then sanitized_path else image_path)
    else mret image_path) (enumerate file_paths).

Definition archive_suffixes : list string :=
  [".cbr"; ".cbz"; ".zip"; ".cbt"; ".cb7"; ".pdf"; ".epub"].
Definition image_suffixes : list string :=
  [".jpg"; ".jpeg"; ".png"; ".webp"; ".bmp"].

Definition os_mkdtemp (dir : string) : M t string := λ self,
  let '(r, d) := mkdtemp dir (disk self) in
  (match r with Some p => Ok p | None => Raise OSError end,
   mk (file_paths self) (archive_info self) d).

Definition os_extract_archive (path dir : string) : M t (list string) :=
  λ self,
  let '(r, d) := extract_archive path dir (disk self) in
  (match r with Some l => Ok l | None => Raise OSError end,
   mk (file_paths self) (archive_info self) d).

Definition archive_info_append (a : archive) : M t unit := λ self,
  (Ok (), mk (file_paths self) (archive_info self ++ [a]) (disk self)).

Definition get_file_paths : M t (list string) := λ self,
  (Ok (file_paths self), self).

Definition set_file_paths (l : list string) : M t unit := λ self,
  (Ok (), mk l (archive_info self) (disk self)).

Definition prepare_files : M t (list string) :=
  paths ← get_file_paths;
  per_path ← for_each (λ path,
    if endswith_any (lower path) archive_suffixes
    return M t (list string) then
      let archive_dir := dirname path in
      temp_dir ← os_mkdtemp archive_dir;
      extracted_files ← os_extract_archive path temp_dir;
      let image_paths :=
        filter (λ f, endswith_any (lower f) image_suffixes = true)
          extracted_files in
      image_paths ← sanitize_and_copy_files image_paths;
      archive_info_append (mkArchive path image_paths temp_dir);;
      mret image_paths
    else
      sanitized ← sanitize_and_copy_files [path];
      path ← py_first sanitized;
      mret [path]) paths;
  let all_image_paths := concat per_path in
  set_file_paths all_image_paths;;
  get_file_paths.
End FileHandler.
End FileHandler.

(** ** What is observed of a chapter reference *)

(** [ch.get(k)] on a chapter reference of a batch. *)
Definition field (ch : json) (k : string) : option json :=
  match ch with
  | JDict d => dict_get k d
  | _ => None
  end.

(** A chapter reference is a [dict] that carries an ["index"]. *)
Definition is_chapter_ref (ch : json) : bool :=
  match field ch "index" with Some _ => true | None => false end.

Definition index_of (ch : json) : json := default JNull (field ch "index").

(** The message [{"type": "send_progress", "chapters": .., "progress": ..}]. *)
Definition progress_message (chapters progress : json) : json :=
  JDict [("type", JStr "send_progress");
         ("chapters", chapters);
         ("progress", progress)].

(** ** The monad and the dictionaries *)

Lemma bind_unfold {W A B} (m : M W A) (f : A → M W B) (w : W) :
  (m ≫= f) w =
  match m w with
  | (Ok a, w') => f a w'
  | (Raise e, w') => (Raise e, w')
  end.
Proof. reflexivity. Qed.

Lemma dict_get_set_eq k v d : dict_get k (dict_set k v d) = Some v.
Proof.
  induction d as [|[k' v'] d IH]; simpl.
  - by rewrite decide_True.
  - destruct (decide (k = k')) as [->|Hne]; simpl.
    + by rewrite decide_True.
    + by rewrite decide_False.
Qed.

Lemma dict_get_set_ne k k' v d :
  k ≠ k' → dict_get k' (dict_set k v d) = dict_get k' d.
Proof.
  intros Hne. induction d as [|[k0 v0] d IH]; simpl.
  - by rewrite decide_False.
  - destruct (decide (k = k0)) as [->|Hk]; simpl.
    + by rewrite !decide_False.
    + destruct (decide (k' = k0)); [done | apply IH].
Qed.

Lemma field_set_eq d k v : field (JDict (dict_set k v d)) k = Some v.
Proof. apply dict_get_set_eq. Qed.

Lemma field_set_ne d k k' v :
  k ≠ k' → field (JDict (dict_set k v d)) k' = field (JDict d) k'.
Proof. apply dict_get_set_ne. Qed.

(** ** The Status Cache along a log *)

Lemma cache_after_app es1 es2 c :
  cache_after (es1 ++ es2) c = cache_after es2 (cache_after es1 c).
Proof. apply foldl_app. Qed.

(** A key no event writes keeps its entry. *)
Lemma cache_after_frame es c key :
  Forall (λ e, ∀ m i f v, e = CacheSet m i f v → (m, i, f) ≠ key) es →
  cache_after es c !! key = c !! key.
Proof.
  intros H. revert c. induction H as [|e es He _ IH]; intros c; [done|].
  change (cache_after (e :: es) c) with (cache_after ([e] ++ es) c).
  rewrite cache_after_app, IH. destruct e; try done.
  simpl. apply lookup_insert_ne. by eapply He.
Qed.

(** A key that is written, and only ever with [v], holds [v]. *)
Lemma cache_after_written es c m i f v :
  CacheSet m i f v ∈ es →
  Forall (λ e, ∀ v', e = CacheSet m i f v' → v' = v) es →
  cache_after es c !! (m, i, f) = Some v.
Proof.
  induction es as [|e es IH] using rev_ind; intros Hin Hall.
  - by apply elem_of_nil in Hin.
  - apply Forall_app in Hall as [Hall He]. rewrite Forall_singleton in He.
    rewrite cache_after_app. apply elem_of_app in Hin as [Hin|Hin].
    + destruct e; simpl; try by apply IH.
      rewrite lookup_insert. case_decide as Hk; [|by apply IH].
      injection Hk as -> -> ->. f_equal. by apply He.
    + apply list_elem_of_singleton in Hin as <-. simpl. apply lookup_insert_eq.
Qed.

(** ** Worlds reached by emitting events *)

(** [w'] is [w] after the events [es]: the log grew by [es], the Status
    Cache took the writes among them and the store was not touched. *)
Definition after (es : list event) (w : world) : world :=
  mkWorld (store w) (cache_after es (cache w)) (log w ++ es).

Lemma after_nil w : after [] w = w.
Proof. destruct w. unfold after. simpl. by rewrite app_nil_r. Qed.

Lemma after_app es1 es2 w : after es2 (after es1 w) = after (es1 ++ es2) w.
Proof. unfold after. simpl. by rewrite cache_after_app, app_assoc. Qed.

Lemma emit_after e w : is_cache_set e = false → emit e w = (Ok (), after [e] w).
Proof. by destruct e. Qed.

Lemma update_cached_chapter_after m i f v w :
  update_cached_chapter m i f v w = (Ok (), after [CacheSet m i f v] w).
Proof. reflexivity. Qed.

(** A loop whose every iteration only emits events satisfying [Q], whatever
    its outcome, only emits such events. *)
Lemma for_each_after {A B} (Q : event → Prop) (body : A → M world B) l :
  (∀ x w, ∃ es, Forall Q es ∧ (body x w).2 = after es w) →
  ∀ w, ∃ es, Forall Q es ∧ (for_each body l w).2 = after es w.
Proof.
  intros Hbody. induction l as [|x l IH]; intros w; simpl.
  - exists []. by rewrite after_nil.
  - rewrite bind_unfold. destruct (Hbody x w) as (es1 & H1 & E1).
    destruct (body x w) as [[y|e] w1]; simpl in E1; subst w1.
    + rewrite bind_unfold. destruct (IH (after es1 w)) as (es2 & H2 & E2).
      destruct (for_each body l (after es1 w)) as [[ys|e] w2];
        simpl in E2; subst w2; simpl;
        (exists (es1 ++ es2); split; [by apply Forall_app | by rewrite after_app]).
    + by exists es1.
Qed.

Lemma bind_ok {W A B} (m : M W A) (f : A → M W B) w a w' :
  m w = (Ok a, w') → (m ≫= f) w = f a w'.
Proof. intros E. by rewrite bind_unfold, E. Qed.

Lemma bind_raise {W A B} (m : M W A) (f : A → M W B) w e w' :
  m w = (Raise e, w') → (m ≫= f) w = (Raise e, w').
Proof. intros E. by rewrite bind_unfold, E. Qed.

Lemma bind_assoc {W A B C} (m : M W A) (f : A → M W B) (g : B → M W C) w :
  ((m ≫= f) ≫= g) w = (m ≫= λ a, f a ≫= g) w.
Proof. rewrite !bind_unfold. by destruct (m w) as [[a|e] w']. Qed.

(** Runs the first command of a sequence when it returns normally. *)
Ltac run_ok :=
  erewrite bind_ok;
  [ | first [ eassumption | apply update_cached_chapter_after
            | apply emit_after; reflexivity | reflexivity ] ].

Lemma broadcasts_app es1 es2 :
  broadcasts (es1 ++ es2) = broadcasts es1 ++ broadcasts es2.
Proof. apply omap_app. Qed.

Lemma broadcasts_cache_sets es :
  Forall (λ e, is_cache_set e = true) es → broadcasts es = [].
Proof. induction 1 as [|[] es He _ IH]; try done. Qed.

Lemma enqueued_cache_sets es :
  Forall (λ e, is_cache_set e = true) es → enqueued es = [].
Proof. induction 1 as [|[] es He _ IH]; try done. Qed.

Lemma is_chapter_ref_inv ch :
  is_chapter_ref ch = true → ∃ d i, ch = JDict d ∧ dict_get "index" d = Some i.
Proof.
  unfold is_chapter_ref, field. destruct ch; try done.
  destruct (dict_get "index" d) eqn:E; [eauto | done].
Qed.

(** ** The optimistic update of a batch, chapter by chapter *)

Import DownloadTranslateConsumer.

(** [ch[k] = v] when [ch] is a chapter reference. *)
Definition mark (k v : string) (ch : json) : json :=
  match ch with
  | JDict d => JDict (dict_set k (JStr v) d)
  | _ => ch
  end.

(** The chapter reference and the Status Cache writes that one iteration of
    the loop of [run_download_translate] leaves for a chapter reference. *)
Definition loading_mark (task ch : json) : json :=
  let ch := mark "download_status" "LOADING" ch in
  if py_eq_str task "download_translate"
  then mark "translation_status" "LOADING" ch else ch.

Definition loading_writes (self : t) (task ch : json) : list event :=
  CacheSet (JStr (manhwa_id self)) (index_of ch) "download_status" "LOADING" ::
  if py_eq_str task "download_translate"
  then [CacheSet (JStr (manhwa_id self)) (index_of ch)
          "translation_status" "LOADING"]
  else [].

(** The same for one iteration of the loop of [run_remove], given the truth
    values of the two removal choices. *)
Definition removing_mark (downloaded translated : bool) (ch : json) : json :=
  let ch := if downloaded then mark "download_status" "REMOVING" ch else ch in
  if translated then mark "translation_status" "REMOVING" ch else ch.

Definition removing_writes (self : t) (downloaded translated : bool)
    (ch : json) : list event :=
  (if downloaded
   then [CacheSet (JStr (manhwa_id self)) (index_of ch)
           "download_status" "REMOVING"]
   else []) ++
  (if translated
   then [CacheSet (JStr (manhwa_id self)) (index_of ch)
           "remove_status" "REMOVING"]
   else []).

(** The events a batch handler adds to the log: Status Cache writes, and,
    when it returns, one broadcast followed by one submission. *)
Definition batch_events (writes : list event) (group : string)
    (message : json) (submission : event) : list event :=
  writes ++ [GroupSend group message; submission].

Lemma index_of_mark k v ch : k ≠ "index" → index_of (mark k v ch) = index_of ch.
Proof.
  intros Hk. destruct ch; try done. unfold index_of, mark.
  by rewrite field_set_ne.
Qed.

Lemma field_mark_eq k v ch :
  is_chapter_ref ch = true → field (mark k v ch) k = Some (JStr v).
Proof.
  intros (d & i & -> & _)%is_chapter_ref_inv. apply field_set_eq.
Qed.

Lemma field_mark_ne k k' v ch : k ≠ k' → field (mark k v ch) k' = field ch k'.
Proof. intros Hk. destruct ch; try done. by apply field_set_ne. Qed.

Lemma is_chapter_ref_mark k v ch :
  k ≠ "index" → is_chapter_ref (mark k v ch) = is_chapter_ref ch.
Proof.
  intros Hk. unfold is_chapter_ref. by rewrite field_mark_ne.
Qed.

(** [run_download_translate] on a list of chapter references. *)
Lemma run_download_translate_chapters self task l w :
  forallb is_chapter_ref l = true →
  run_download_translate self task (JList l) w =
  (Ok (),
   after (batch_events (l ≫= loading_writes self task) (group_name self)
            (progress_message (JList (loading_mark task <$> l))
               (JDict [("current", JInt 0);
                       ("total", JInt (Z.of_nat (length l)))]))
            (DownloaderAppend (manhwa_id self) (group_name self) task
               (JList (loading_mark task <$> l)))) w).
Proof.
  intros Hl. unfold run_download_translate.
  do 2 run_ok.
  match goal with |- context [for_each ?b] => set (body := b) end.
  assert (Hloop : ∀ l w, forallb is_chapter_ref l = true →
    for_each body l w =
    (Ok (loading_mark task <$> l), after (l ≫= loading_writes self task) w)).
  { clear. induction l as [|ch l IH]; intros w Hl.
    - simpl. by rewrite after_nil.
    - apply andb_prop in Hl as [Hch Hl].
      specialize (IH (after (loading_writes self task ch) w) Hl).
      apply is_chapter_ref_inv in Hch as (d & i & -> & Hi).
      cbn [for_each].
      assert (body (JDict d) w =
              (Ok (loading_mark task (JDict d)),
               after (loading_writes self task (JDict d)) w)) as Hb.
      { unfold body, loading_mark, loading_writes, index_of.
        cbn [mark field]. rewrite Hi. cbn [default].
        run_ok.
        erewrite bind_ok; [|unfold py_getitem; by rewrite dict_get_set_ne, Hi].
        run_ok. destruct (py_eq_str task "download_translate"); [|done].
        run_ok.
        erewrite bind_ok; [|unfold py_getitem; by rewrite !dict_get_set_ne, Hi].
        run_ok. unfold mret, M_ret. by rewrite after_app. }
      do 2 run_ok. unfold mret, M_ret. by rewrite after_app. }
  erewrite bind_ok; [|by apply Hloop].
  run_ok. unfold downloader_append. rewrite emit_after by done.
  unfold batch_events. by rewrite !after_app, <- ?app_assoc.
Qed.

(** [run_remove] on a list of chapter references and a [dict] of choices
    that has both keys. *)
Lemma run_remove_chapters self l remove_choices downloaded translated w :
  field remove_choices "downloaded" = Some downloaded →
  field remove_choices "translated" = Some translated →
  forallb is_chapter_ref l = true →
  let mark_ch := removing_mark (py_truthy downloaded) (py_truthy translated) in
  run_remove self (JList l) remove_choices w =
  (Ok (),
   after (batch_events
            (l ≫= removing_writes self (py_truthy downloaded)
                    (py_truthy translated))
            (group_name self)
            (progress_message (JList (mark_ch <$> l)) (JDict []))
            (CleanerAppend (manhwa_id self) (group_name self)
               (JList (mark_ch <$> l)) remove_choices)) w).
Proof.
  intros Hd Ht Hl mark_ch. unfold run_remove.
  destruct remove_choices as [| | | | |rc]; try done. simpl in Hd, Ht.
  run_ok.
  match goal with |- context [for_each ?b] => set (body := b) end.
  assert (Hloop : ∀ l w, forallb is_chapter_ref l = true →
    for_each body l w =
    (Ok (mark_ch <$> l),
     after (l ≫= removing_writes self (py_truthy downloaded)
                   (py_truthy translated)) w)).
  { clear -Hd Ht. induction l as [|ch l IH]; intros w Hl.
    - simpl. by rewrite after_nil.
    - apply andb_prop in Hl as [Hch Hl].
      specialize (IH (after (removing_writes self (py_truthy downloaded)
                               (py_truthy translated) ch) w) Hl).
      apply is_chapter_ref_inv in Hch as (d & i & -> & Hi).
      cbn [for_each].
      assert (body (JDict d) w =
              (Ok (mark_ch (JDict d)),
               after (removing_writes self (py_truthy downloaded)
                        (py_truthy translated) (JDict d)) w)) as Hb.
      { unfold body, mark_ch, removing_mark, removing_writes, index_of.
        cbn [field]. rewrite Hi. cbn [default].
        erewrite bind_ok; [|unfold py_getitem; by rewrite Hd].
        destruct (py_truthy downloaded).
        - rewrite bind_assoc. run_ok.
          rewrite bind_assoc.
          erewrite bind_ok; [|unfold py_getitem; by rewrite dict_get_set_ne, Hi].
          rewrite bind_assoc. do 2 run_ok.
          erewrite bind_ok; [|unfold py_getitem; by rewrite Ht].
          destruct (py_truthy translated); cbn [mark app].
          + run_ok.
            erewrite bind_ok;
              [|unfold py_getitem; by rewrite !dict_get_set_ne, Hi].
            run_ok. unfold mret, M_ret. by rewrite after_app.
          + done.
        - run_ok.
          erewrite bind_ok; [|unfold py_getitem; by rewrite Ht].
          destruct (py_truthy translated); cbn [mark app].
          + run_ok.
            erewrite bind_ok; [|unfold py_getitem; by rewrite dict_get_set_ne, Hi].
            by run_ok.
          + unfold mret, M_ret. by rewrite after_nil. }
      do 2 run_ok. unfold mret, M_ret. by rewrite after_app. }
  erewrite bind_ok; [|by apply Hloop].
  run_ok. unfold cleaner_append. rewrite emit_after by done.
  unfold batch_events. by rewrite !after_app, <- ?app_assoc.
Qed.

(** ** Commands that only emit events of one kind *)

(** Whatever its outcome, [m] leaves the world it started in extended by
    events that satisfy [Q]. *)
Definition emits {A} (Q : event → Prop) (m : M world A) : Prop :=
  ∀ w, ∃ es, Forall Q es ∧ (m w).2 = after es w.

Create HintDb emits discriminated.

Lemma emits_ret {A} Q (a : A) : emits Q (mret a).
Proof. intros w. exists []. by rewrite after_nil. Qed.

Lemma emits_raise {A} Q e : emits Q (raise e : M world A).
Proof. intros w. exists []. by rewrite after_nil. Qed.

Lemma emits_bind {A B} Q (m : M world A) (f : A → M world B) :
  emits Q m → (∀ a, emits Q (f a)) → emits Q (m ≫= f).
Proof.
  intros Hm Hf w. rewrite bind_unfold. destruct (Hm w) as (es1 & H1 & E1).
  destruct (m w) as [[a|e] w1]; simpl in E1; subst w1.
  - destruct (Hf a (after es1 w)) as (es2 & H2 & E2).
    exists (es1 ++ es2). split; [by apply Forall_app|].
    by rewrite E2, after_app.
  - by exists es1.
Qed.

Lemma emits_if {A} Q (b : bool) (m1 m2 : M world A) :
  emits Q m1 → emits Q m2 → emits Q (if b then m1 else m2).
Proof. by destruct b. Qed.

Lemma emits_getitem Q v k : emits Q (py_getitem v k).
Proof.
  destruct v; try apply emits_raise. simpl.
  destruct (dict_get k d); [apply emits_ret | apply emits_raise].
Qed.

Lemma emits_setitem Q v k x : emits Q (py_setitem v k x).
Proof. destruct v; first [apply emits_raise | apply emits_ret]. Qed.

Lemma emits_update_cached_chapter (Q : event → Prop) m i f v :
  Q (CacheSet m i f v) → emits Q (update_cached_chapter m i f v).
Proof. intros HQ w. exists [CacheSet m i f v]. by split; [constructor|]. Qed.

Lemma emits_for_each {A B} Q (body : A → M world B) l :
  (∀ x, emits Q (body x)) → emits Q (for_each body l).
Proof. intros Hbody w. by apply for_each_after. Qed.

#[global] Hint Resolve emits_ret emits_raise emits_bind emits_if emits_getitem
  emits_setitem emits_update_cached_chapter emits_for_each : emits.

Lemma py_len_pure v (w : world) : ∃ r, py_len v w = (r, w).
Proof. destruct v; eexists; reflexivity. Qed.

Lemma py_iter_pure v (w : world) : ∃ r, py_iter v w = (r, w).
Proof. destruct v; eexists; reflexivity. Qed.

(** The Status Cache writes of [run_download_translate]: ["LOADING"], into
    [download_status], and into [translation_status] only for the task
    ["download_translate"]. *)
Definition loading_write (self : t) (task : json) (e : event) : Prop :=
  ∃ i f, e = CacheSet (JStr (manhwa_id self)) i f "LOADING" ∧
    (f = "download_status" ∨
     (f = "translation_status" ∧ py_eq_str task "download_translate" = true)).

(** The Status Cache writes of [run_remove]: ["REMOVING"], into
    [download_status] or [remove_status]. *)
Definition removing_write (self : t) (e : event) : Prop :=
  ∃ i f, e = CacheSet (JStr (manhwa_id self)) i f "REMOVING" ∧
    (f = "download_status" ∨ f = "remove_status").

Lemma loading_write_cache_set self task e :
  loading_write self task e → is_cache_set e = true.
Proof. by intros (i & f & -> & _). Qed.

Lemma removing_write_cache_set self e :
  removing_write self e → is_cache_set e = true.
Proof. by intros (i & f & -> & _). Qed.

(** Every run of [run_download_translate]: Status Cache writes, then either
    an exception or the broadcast followed by the submission. *)
Lemma run_download_translate_shape self task chapters w :
  ∃ writes, Forall (loading_write self task) writes ∧
    ((∃ e, run_download_translate self task chapters w =
           (Raise e, after writes w)) ∨
     (∃ chapters' progress,
        run_download_translate self task chapters w =
        (Ok (),
         after (batch_events writes (group_name self)
                  (progress_message chapters' progress)
                  (DownloaderAppend (manhwa_id self) (group_name self)
                     task chapters')) w))).
Proof.
  unfold run_download_translate.
  match goal with |- context [for_each ?b] => set (body := b) end.
  assert (Hbody : ∀ ch, emits (loading_write self task) (body ch)).
  { intros ch. unfold body.
    destruct (py_eq_str task "download_translate") eqn:Et;
      eauto 20 with emits;
      repeat (first [ apply emits_bind | intros ? | apply emits_setitem
                    | apply emits_getitem | apply emits_ret
                    | apply emits_update_cached_chapter ]);
      unfold loading_write; eauto 10. }
  destruct (py_len_pure chapters w) as [[n|e] Elen].
  2:{ erewrite bind_raise by eassumption.
      exists []. split; [done|]. left. exists e. by rewrite after_nil. }
  erewrite bind_ok by eassumption.
  destruct (py_iter_pure chapters w) as [[items|e] Eiter].
  2:{ erewrite bind_raise by eassumption.
      exists []. split; [done|]. left. exists e. by rewrite after_nil. }
  erewrite bind_ok by eassumption.
  destruct (emits_for_each (loading_write self task) body items Hbody w)
    as (es & Hes & E).
  destruct (for_each body items w) as [[items'|e] w1] eqn:Eloop;
    simpl in E; subst w1; exists es; (split; [done|]).
  - right. eexists _, _. erewrite bind_ok by eassumption.
    run_ok. unfold downloader_append. rewrite emit_after by done.
    unfold batch_events, progress_message.
    by rewrite !after_app, <- ?app_assoc.
  - left. exists e. by erewrite bind_raise by eassumption.
Qed.

(** Every run of [run_remove]: Status Cache writes, then either an
    exception or the broadcast, with an empty progress, followed by the
    submission. *)
Lemma run_remove_shape self chapters remove_choices w :
  ∃ writes, Forall (removing_write self) writes ∧
    ((∃ e, run_remove self chapters remove_choices w =
           (Raise e, after writes w)) ∨
     (∃ chapters',
        run_remove self chapters remove_choices w =
        (Ok (),
         after (batch_events writes (group_name self)
                  (progress_message chapters' (JDict []))
                  (CleanerAppend (manhwa_id self) (group_name self)
                     chapters' remove_choices)) w))).
Proof.
  unfold run_remove.
  match goal with |- context [for_each ?b] => set (body := b) end.
  assert (Hbody : ∀ ch, emits (removing_write self) (body ch)).
  { intros ch. unfold body.
    repeat (first [ apply emits_bind | apply emits_if | intros ?
                  | apply emits_setitem | apply emits_getitem
                  | apply emits_ret | apply emits_update_cached_chapter ]);
      unfold removing_write; eauto 10. }
  destruct (py_iter_pure chapters w) as [[items|e] Eiter].
  2:{ erewrite bind_raise by eassumption.
      exists []. split; [done|]. left. exists e. by rewrite after_nil. }
  erewrite bind_ok by eassumption.
  destruct (emits_for_each (removing_write self) body items Hbody w)
    as (es & Hes & E).
  destruct (for_each body items w) as [[items'|e] w1] eqn:Eloop;
    simpl in E; subst w1; exists es; (split; [done|]).
  - right. eexists. erewrite bind_ok by eassumption.
    run_ok. unfold cleaner_append. rewrite emit_after by done.
    unfold batch_events, progress_message.
    by rewrite !after_app, <- ?app_assoc.
  - left. exists e. by erewrite bind_raise by eassumption.
Qed.

(** Neither handler writes a [translation_status] entry of the Status Cache
    unless it is [run_download_translate] on the task
    ["download_translate"]. *)
Lemma batch_events_cache writes group message submission c :
  is_cache_set submission = false →
  cache_after (batch_events writes group message submission) c =
  cache_after writes c.
Proof.
  intros Hs. unfold batch_events. rewrite cache_after_app.
  simpl. by destruct submission.
Qed.

Lemma removing_writes_frame self writes c m i :
  Forall (removing_write self) writes →
  cache_after writes c !! (m, i, "translation_status") =
  c !! (m, i, "translation_status").
Proof.
  intros H. apply cache_after_frame. eapply Forall_impl; [exact H|].
  intros e (i' & f & -> & Hf) m' i'' f' v' [= <- <- <- <-] [= _ _ ->].
  by destruct Hf.
Qed.

Lemma loading_writes_frame self task writes c m i :
  py_eq_str task "download_translate" = false →
  Forall (loading_write self task) writes →
  cache_after writes c !! (m, i, "translation_status") =
  c !! (m, i, "translation_status").
Proof.
  intros Ht H. apply cache_after_frame. eapply Forall_impl; [exact H|].
  intros e (i' & f & -> & Hf) m' i'' f' v' [= <- <- <- <-] [= _ _ ->].
  destruct Hf as [|[_ ?]]; congruence.
Qed.

(** ** Inputs used in examples *)

Definition series_abc : t := mk "/abc" "download_translate_abc" "channel.1".
Definition chapter_ref (n : Z) : json := JDict [("index", JInt n)].
Definition empty_world : world := mkWorld ∅ ∅ [].

(** ** The writes of a batch of chapter references *)

Lemma loading_writes_sound self task l :
  Forall (loading_write self task) (l ≫= loading_writes self task).
Proof.
  apply Forall_bind, Forall_forall. intros ch _. unfold loading_writes.
  constructor; [by eexists _, _; eauto|].
  destruct (py_eq_str task "download_translate") eqn:Et; [|done].
  constructor; [|done]. eexists _, _; eauto.
Qed.

Lemma removing_writes_sound self downloaded translated l :
  Forall (removing_write self)
    (l ≫= removing_writes self downloaded translated).
Proof.
  apply Forall_bind, Forall_forall. intros ch _. unfold removing_writes.
  apply Forall_app.
  split; [destruct downloaded | destruct translated];
    try done; (constructor; [|done]); eexists _, _; eauto.
Qed.

(** An entry written by [run_download_translate] holds ["LOADING"]. *)
Lemma cache_after_loading self task writes c i f :
  Forall (loading_write self task) writes →
  CacheSet (JStr (manhwa_id self)) i f "LOADING" ∈ writes →
  cache_after writes c !! (JStr (manhwa_id self), i, f) = Some "LOADING".
Proof.
  intros Hall Hin. apply cache_after_written; [done|].
  eapply Forall_impl; [exact Hall|].
  intros e (i' & f' & -> & _) v' [= _ _ <-]. done.
Qed.

Lemma loading_writes_download self task l n ch :
  l !! n = Some ch →
  CacheSet (JStr (manhwa_id self)) (index_of ch) "download_status" "LOADING"
    ∈ l ≫= loading_writes self task.
Proof.
  intros Hn. apply list_elem_of_bind. exists ch.
  split; [|by eapply list_elem_of_lookup_2]. unfold loading_writes. by left.
Qed.

Lemma loading_writes_translation self l n ch :
  l !! n = Some ch →
  CacheSet (JStr (manhwa_id self)) (index_of ch) "translation_status" "LOADING"
    ∈ l ≫= loading_writes self (JStr "download_translate").
Proof.
  intros Hn. apply list_elem_of_bind. exists ch.
  split; [|by eapply list_elem_of_lookup_2]. unfold loading_writes. simpl.
  right. by left.
Qed.

Lemma broadcasts_batch_events writes group message submission :
  Forall (λ e, is_cache_set e = true) writes →
  is_enqueue submission = true →
  broadcasts (batch_events writes group message submission) =
  [(group, message)].
Proof.
  intros Hw Hs. unfold batch_events.
  rewrite broadcasts_app, broadcasts_cache_sets by done.
  by destruct submission.
Qed.

(** ** The task dispatcher: [run_download_translate] *)

(** What [run_download_translate] has done with a ["download_translate"]
    batch when it returns: it wrote the Status Cache ([writes]), then
    published exactly one message, with the counter
    [{current: 0, total: len(chapters)}], then handed the batch to the
    downloader.  When the message is published, that is after [writes], both
    status entries of every chapter of the batch hold ["LOADING"], and so do
    both fields of every chapter in the message. *)
Definition both_marked_loading (self : t) (chapters : list json) (w : world)
    : Prop :=
  ∃ writes chapters',
    let message :=
      progress_message (JList chapters')
        (JDict [("current", JInt 0);
                ("total", JInt (Z.of_nat (length chapters)))]) in
    let events :=
      batch_events writes (group_name self) message
        (DownloaderAppend (manhwa_id self) (group_name self)
           (JStr "download_translate") (JList chapters')) in
    run_download_translate self (JStr "download_translate") (JList chapters) w
      = (Ok (), after events w) ∧
    Forall (λ e, is_cache_set e = true) writes ∧
    broadcasts events = [(group_name self, message)] ∧
    length chapters' = length chapters ∧
    ∀ n ch, chapters !! n = Some ch →
      cache_after writes (cache w)
        !! (JStr (manhwa_id self), index_of ch, "download_status")
        = Some "LOADING" ∧
      cache_after writes (cache w)
        !! (JStr (manhwa_id self), index_of ch, "translation_status")
        = Some "LOADING" ∧
      ∃ ch', chapters' !! n = Some ch' ∧
        index_of ch' = index_of ch ∧
        field ch' "download_status" = Some (JStr "LOADING") ∧
        field ch' "translation_status" = Some (JStr "LOADING").

(** C4.  For every ["download_translate"] batch of chapter references (a
    non-empty one in particular), [run_download_translate] returns after it
    set [download_status] and [translation_status] of every listed chapter
    to ["LOADING"], in the Status Cache and in the broadcast chapter list,
    and published exactly one message, whose progress counter is
    [{current: 0, total: number of chapters}]. *)
Theorem download_translate_marks_both_loading self chapters w :
  forallb is_chapter_ref chapters = true →
  both_marked_loading self chapters w.
Proof.
  intros Hl.
  exists (chapters ≫= loading_writes self (JStr "download_translate")),
         (loading_mark (JStr "download_translate") <$> chapters).
  pose proof (loading_writes_sound self (JStr "download_translate") chapters)
    as Hw.
  assert (Forall (λ e, is_cache_set e = true)
            (chapters ≫= loading_writes self (JStr "download_translate")))
    as Hc.
  { eapply Forall_impl; [exact Hw|]. apply loading_write_cache_set. }
  cbv zeta. split_and!.
  - by apply run_download_translate_chapters.
  - done.
  - by apply broadcasts_batch_events.
  - apply length_fmap.
  - intros n ch Hn.
    assert (is_chapter_ref ch = true) as Hch.
    { rewrite forallb_forall in Hl. apply Hl, list_elem_of_In.
      by eapply list_elem_of_lookup_2. }
    split_and!.
    + eapply cache_after_loading; [done|]. by eapply loading_writes_download.
    + eapply cache_after_loading; [done|].
      by eapply loading_writes_translation.
    + exists (loading_mark (JStr "download_translate") ch).
      rewrite list_lookup_fmap, Hn. unfold loading_mark. simpl py_eq_str.
      cbv iota zeta. split_and!; [done|..].
      * by rewrite !index_of_mark.
      * rewrite field_mark_ne by done. by apply field_mark_eq.
      * apply field_mark_eq. by rewrite is_chapter_ref_mark.
Qed.

Lemma download_translate_marks_both_loading_witness :
  forallb is_chapter_ref [chapter_ref 1; chapter_ref 2] = true ∧
  both_marked_loading series_abc [chapter_ref 1; chapter_ref 2] empty_world.
Proof.
  split; [reflexivity|].
  apply (download_translate_marks_both_loading series_abc
           [chapter_ref 1; chapter_ref 2] empty_world).
  reflexivity.
Defined.

(** C2, as stated, fails: on the ["translate"] batch [[{"index": 1}]] for
    the series ["/abc"], [run_download_translate] returns and publishes its
    message while the [translation_status] entry of chapter 1 is absent from
    the Status Cache: it was not set to ["LOADING"]. *)
Lemma translate_leaves_translation_status_unset :
  let out :=
    run_download_translate series_abc (JStr "translate")
      (JList [chapter_ref 1]) empty_world in
  out.1 = Ok () ∧
  length (broadcasts (log out.2)) = 1%nat ∧
  cache out.2 !! (JStr "/abc", JInt 1, "translation_status") = None ∧
  cache out.2 !! (JStr "/abc", JInt 1, "translation_status") ≠ Some "LOADING".
Proof. vm_compute. by split_and!. Qed.

(** What [run_download_translate] has done with a batch whose task is not
    ["download_translate"] when it returns: when the one message is
    published, that is after [writes], the [download_status] entry of every
    chapter of the batch holds ["LOADING"] and every [translation_status]
    entry of the Status Cache is what it was before the call. *)
Definition only_download_marked_loading (self : t) (task : json)
    (chapters : list json) (w : world) : Prop :=
  ∃ writes chapters',
    let message :=
      progress_message (JList chapters')
        (JDict [("current", JInt 0);
                ("total", JInt (Z.of_nat (length chapters)))]) in
    let events :=
      batch_events writes (group_name self) message
        (DownloaderAppend (manhwa_id self) (group_name self) task
           (JList chapters')) in
    run_download_translate self task (JList chapters) w
      = (Ok (), after events w) ∧
    Forall (λ e, is_cache_set e = true) writes ∧
    broadcasts events = [(group_name self, message)] ∧
    (∀ n ch, chapters !! n = Some ch →
      cache_after writes (cache w)
        !! (JStr (manhwa_id self), index_of ch, "download_status")
        = Some "LOADING") ∧
    (∀ m i,
      cache_after writes (cache w) !! (m, i, "translation_status")
        = cache w !! (m, i, "translation_status")).

(** C2, amended.  For every ["translate"] batch of chapter references,
    [run_download_translate] sets the [download_status] entry of each listed
    chapter to ["LOADING"] in the Status Cache before it publishes the
    message, and changes no [translation_status] entry. *)
Theorem translate_marks_download_status_only self chapters w :
  forallb is_chapter_ref chapters = true →
  only_download_marked_loading self (JStr "translate") chapters w.
Proof.
  intros Hl. set (task := JStr "translate").
  exists (chapters ≫= loading_writes self task),
         (loading_mark task <$> chapters).
  pose proof (loading_writes_sound self task chapters) as Hw.
  assert (Forall (λ e, is_cache_set e = true)
            (chapters ≫= loading_writes self task)) as Hc.
  { eapply Forall_impl; [exact Hw|]. apply loading_write_cache_set. }
  cbv zeta. split_and!.
  - by apply run_download_translate_chapters.
  - done.
  - by apply broadcasts_batch_events.
  - intros n ch Hn. eapply cache_after_loading; [done|].
    by eapply loading_writes_download.
  - intros m i. by apply (loading_writes_frame self task).
Qed.

Lemma translate_marks_download_status_only_witness :
  forallb is_chapter_ref [chapter_ref 1; chapter_ref 2] = true ∧
  only_download_marked_loading series_abc (JStr "translate")
    [chapter_ref 1; chapter_ref 2] empty_world.
Proof.
  split; [reflexivity|].
  apply (translate_marks_download_status_only series_abc
           [chapter_ref 1; chapter_ref 2] empty_world).
  reflexivity.
Defined.

(** ** The session: [receive] *)

(** C3, as stated, fails: the message
    [{"task": "archive", "chapters": [{"index": 1}]}], whose task is none of
    the known kinds, is not rejected.  [receive] returns normally after it
    wrote the Status Cache, published a message and handed the batch to the
    downloader. *)
Lemma receive_unknown_kind_not_rejected :
  let data :=
    JDict [("task", JStr "archive"); ("chapters", JList [chapter_ref 1])] in
  let out := receive series_abc data empty_world in
  out.1 = Ok () ∧
  cache out.2 !! (JStr "/abc", JInt 1, "download_status") = Some "LOADING" ∧
  cache empty_world !! (JStr "/abc", JInt 1, "download_status") = None ∧
  length (broadcasts (log out.2)) = 1%nat ∧
  length (enqueued (log out.2)) = 1%nat.
Proof. vm_compute. by split_and!. Qed.

(** What [receive] has done with a message it forwarded to
    [run_download_translate]: it wrote the Status Cache, published one
    message and handed the batch to the downloader; the [download_status]
    entry of every chapter of the batch holds ["LOADING"]. *)
Definition forwarded_to_downloader (self : t) (data task : json)
    (chapters : list json) (w : world) : Prop :=
  receive self data w = run_download_translate self task (JList chapters) w ∧
  ∃ writes chapters' progress,
    let events :=
      batch_events writes (group_name self)
        (progress_message (JList chapters') progress)
        (DownloaderAppend (manhwa_id self) (group_name self) task
           (JList chapters')) in
    receive self data w = (Ok (), after events w) ∧
    Forall (λ e, is_cache_set e = true) writes ∧
    length (broadcasts events) = 1%nat ∧
    length (enqueued events) = 1%nat ∧
    ∀ n ch, chapters !! n = Some ch →
      cache (after events w)
        !! (JStr (manhwa_id self), index_of ch, "download_status")
        = Some "LOADING".

(** C3, amended.  For every inbound message whose task is anything but
    ["remove"], one of the known kinds or not, [receive] runs
    [run_download_translate] on it: with a list of chapter references, each
    listed chapter's [download_status] is set to ["LOADING"] in the Status
    Cache, one message is published and the batch is handed to the
    downloader.  No task is rejected. *)
Theorem receive_forwards_every_other_task self d task chapters w :
  dict_get "task" d = Some task →
  py_eq_str task "remove" = false →
  dict_get "chapters" d = Some (JList chapters) →
  forallb is_chapter_ref chapters = true →
  forwarded_to_downloader self (JDict d) task chapters w.
Proof.
  intros Htask Hremove Hchapters Hl.
  assert (receive self (JDict d) w
          = run_download_translate self task (JList chapters) w) as Hrecv.
  { unfold receive.
    erewrite bind_ok; [|unfold py_getitem; by rewrite Htask].
    erewrite bind_ok; [|unfold py_getitem; by rewrite Hchapters].
    by rewrite Hremove. }
  split; [done|]. rewrite Hrecv.
  exists (chapters ≫= loading_writes self task),
         (loading_mark task <$> chapters),
         (JDict [("current", JInt 0);
                 ("total", JInt (Z.of_nat (length chapters)))]).
  pose proof (loading_writes_sound self task chapters) as Hw.
  assert (Forall (λ e, is_cache_set e = true)
            (chapters ≫= loading_writes self task)) as Hc.
  { eapply Forall_impl; [exact Hw|]. apply loading_write_cache_set. }
  cbv zeta. split_and!.
  - by apply run_download_translate_chapters.
  - done.
  - by rewrite broadcasts_batch_events.
  - unfold batch_events, enqueued. rewrite filter_app.
    fold (enqueued (chapters ≫= loading_writes self task)).
    by rewrite enqueued_cache_sets.
  - intros n ch Hn. unfold after at 1. cbn [cache].
    rewrite batch_events_cache by done.
    eapply cache_after_loading; [done|]. by eapply loading_writes_download.
Qed.

Lemma receive_forwards_every_other_task_witness :
  let d := [("task", JStr "archive"); ("chapters", JList [chapter_ref 1])] in
  dict_get "task" d = Some (JStr "archive") ∧
  py_eq_str (JStr "archive") "remove" = false ∧
  dict_get "chapters" d = Some (JList [chapter_ref 1]) ∧
  forallb is_chapter_ref [chapter_ref 1] = true ∧
  forwarded_to_downloader series_abc (JDict d) (JStr "archive")
    [chapter_ref 1] empty_world.
Proof.
  split_and!; [reflexivity..|].
  apply (receive_forwards_every_other_task series_abc
           [("task", JStr "archive"); ("chapters", JList [chapter_ref 1])]
           (JStr "archive") [chapter_ref 1] empty_world); reflexivity.
Defined.

(** ** The removal dispatcher: [run_remove] *)

(** C1.  The code at the removal request [[{"index": 3}]] with the targets
    [{"downloaded": false, "translated": true}] for the series ["/abc"]:
    [run_remove] returns and publishes its message, in which the chapter's
    [translation_status] is ["REMOVING"], but the Status Cache entry it
    wrote is [remove_status]; the [translation_status] entry of chapter 3 is
    not set. *)
Theorem run_remove_translated_writes_remove_status :
  let targets :=
    JDict [("downloaded", JBool false); ("translated", JBool true)] in
  let marked :=
    JList [JDict [("index", JInt 3);
                  ("translation_status", JStr "REMOVING")]] in
  let out :=
    run_remove series_abc (JList [chapter_ref 3]) targets empty_world in
  out.1 = Ok () ∧
  log out.2 =
    [CacheSet (JStr "/abc") (JInt 3) "remove_status" "REMOVING";
     GroupSend "download_translate_abc" (progress_message marked (JDict []));
     CleanerAppend "/abc" "download_translate_abc" marked targets] ∧
  cache out.2 !! (JStr "/abc", JInt 3, "remove_status") = Some "REMOVING" ∧
  cache out.2 !! (JStr "/abc", JInt 3, "translation_status") = None.
Proof. vm_compute. by split_and!. Qed.

(** What [run_remove] has done with a batch when it returns without having
    touched a [translation_status]: it wrote the Status Cache ([writes]),
    published one message and handed the batch to the cleaner; every
    [translation_status] entry of the Status Cache is what it was before the
    call, and every chapter of the message has the [translation_status]
    field (or the lack of one) it came with. *)
Definition translation_status_untouched (self : t) (chapters : list json)
    (remove_choices : json) (w : world) : Prop :=
  ∃ writes chapters',
    let events :=
      batch_events writes (group_name self)
        (progress_message (JList chapters') (JDict []))
        (CleanerAppend (manhwa_id self) (group_name self)
           (JList chapters') remove_choices) in
    run_remove self (JList chapters) remove_choices w
      = (Ok (), after events w) ∧
    (∀ m i,
      cache_after writes (cache w) !! (m, i, "translation_status")
        = cache w !! (m, i, "translation_status")) ∧
    (∀ m i,
      cache (after events w) !! (m, i, "translation_status")
        = cache w !! (m, i, "translation_status")) ∧
    length chapters' = length chapters ∧
    ∀ n ch, chapters !! n = Some ch →
      ∃ ch', chapters' !! n = Some ch' ∧
        field ch' "translation_status" = field ch "translation_status".

(** C7.  For every removal request on chapter references whose targets have
    [downloaded] true and [translated] false, [run_remove] leaves every
    chapter's [translation_status] as it is: no [translation_status] entry of
    the Status Cache changes, and the field is not modified in the broadcast
    chapter list. *)
Theorem remove_downloaded_keeps_translation_status
    self chapters remove_choices downloaded translated w :
  field remove_choices "downloaded" = Some downloaded →
  py_truthy downloaded = true →
  field remove_choices "translated" = Some translated →
  py_truthy translated = false →
  forallb is_chapter_ref chapters = true →
  translation_status_untouched self chapters remove_choices w.
Proof.
  intros Hd Hdt Ht Htf Hl.
  pose proof (run_remove_chapters self chapters remove_choices
                downloaded translated w Hd Ht Hl) as Hrun.
  rewrite Hdt, Htf in Hrun. cbv zeta in Hrun.
  exists (chapters ≫= removing_writes self true false),
         (removing_mark true false <$> chapters).
  pose proof (removing_writes_sound self true false chapters) as Hw.
  cbv zeta. split_and!.
  - exact Hrun.
  - intros m i. by eapply removing_writes_frame.
  - intros m i. unfold after at 1. cbn [cache].
    rewrite batch_events_cache by done. by eapply removing_writes_frame.
  - apply length_fmap.
  - intros n ch Hn. exists (removing_mark true false ch).
    rewrite list_lookup_fmap, Hn. split; [done|].
    unfold removing_mark. by rewrite field_mark_ne.
Qed.

Lemma remove_downloaded_keeps_translation_status_witness :
  let targets :=
    JDict [("downloaded", JBool true); ("translated", JBool false)] in
  let chapters :=
    [JDict [("index", JInt 3); ("translation_status", JStr "READY")]] in
  field targets "downloaded" = Some (JBool true) ∧
  py_truthy (JBool true) = true ∧
  field targets "translated" = Some (JBool false) ∧
  py_truthy (JBool false) = false ∧
  forallb is_chapter_ref chapters = true ∧
  translation_status_untouched series_abc chapters targets empty_world.
Proof.
  split_and!; [reflexivity..|].
  apply (remove_downloaded_keeps_translation_status series_abc
           [JDict [("index", JInt 3); ("translation_status", JStr "READY")]]
           (JDict [("downloaded", JBool true); ("translated", JBool false)])
           (JBool true) (JBool false) empty_world); reflexivity.
Defined.

(** What [run_remove] has published when it returns: among the events it
    added to the log there is exactly one broadcast, to the group of the
    series, and the progress counter of that message is the empty [dict]. *)
Definition one_message_without_progress (self : t) (chapters : list json)
    (remove_choices : json) (w : world) : Prop :=
  ∃ events message progress,
    run_remove self (JList chapters) remove_choices w
      = (Ok (), after events w) ∧
    broadcasts events = [(group_name self, message)] ∧
    field message "progress" = Some progress ∧
    progress = JDict [] ∧
    field progress "current" = None ∧
    field progress "total" = None.

(** C8.  For every removal request (a list of chapter references and
    targets with both choices), [run_remove] publishes exactly one message
    to the group of the series, and the progress counter of that message is
    empty: it has no [current] and no [total]. *)
Theorem remove_publishes_one_message_without_progress
    self chapters remove_choices downloaded translated w :
  field remove_choices "downloaded" = Some downloaded →
  field remove_choices "translated" = Some translated →
  forallb is_chapter_ref chapters = true →
  one_message_without_progress self chapters remove_choices w.
Proof.
  intros Hd Ht Hl.
  pose proof (run_remove_chapters self chapters remove_choices
                downloaded translated w Hd Ht Hl) as Hrun.
  cbv zeta in Hrun. eexists _, _, _. split; [exact Hrun|].
  split.
  - apply broadcasts_batch_events; [|done].
    eapply Forall_impl; [apply removing_writes_sound|].
    apply removing_write_cache_set.
  - done.
Qed.

Lemma remove_publishes_one_message_without_progress_witness :
  let targets :=
    JDict [("downloaded", JBool true); ("translated", JBool true)] in
  field targets "downloaded" = Some (JBool true) ∧
  field targets "translated" = Some (JBool true) ∧
  forallb is_chapter_ref [chapter_ref 3; chapter_ref 4] = true ∧
  one_message_without_progress series_abc [chapter_ref 3; chapter_ref 4]
    targets empty_world.
Proof.
  split_and!; [reflexivity..|].
  apply (remove_publishes_one_message_without_progress series_abc
           [chapter_ref 3; chapter_ref 4]
           (JDict [("downloaded", JBool true); ("translated", JBool true)])
           (JBool true) (JBool true) empty_world); reflexivity.
Defined.

(** ** The order of the effects of the two dispatchers *)

(** The events a dispatcher added to the log are Status Cache writes,
    followed, unless it raised before, by the broadcast to the group and
    then by the submission of the batch to the executor. *)
Definition writes_then_broadcast_then_submission (group : string)
    (is_submission : event → Prop) (w : world) (out : result unit * world)
    : Prop :=
  ∃ writes, Forall (λ e, is_cache_set e = true) writes ∧
    ((∃ e, out = (Raise e, after writes w)) ∨
     (∃ message submission,
        is_submission submission ∧
        out = (Ok (), after (writes ++ [GroupSend group message; submission]) w))).

(** C9.  In every invocation of [run_download_translate] and of
    [run_remove], whatever the arguments and the outcome, all Status Cache
    writes come before the broadcast to the group, and the broadcast comes
    before the batch is appended to the queue of the downloader or of the
    cleaner. *)
Theorem cache_writes_before_broadcast_before_append
    self task chapters remove_choices w :
  writes_then_broadcast_then_submission (group_name self)
    (λ e, ∃ chapters',
       e = DownloaderAppend (manhwa_id self) (group_name self) task chapters')
    w (run_download_translate self task chapters w) ∧
  writes_then_broadcast_then_submission (group_name self)
    (λ e, ∃ chapters',
       e = CleanerAppend (manhwa_id self) (group_name self) chapters'
             remove_choices)
    w (run_remove self chapters remove_choices w).
Proof.
  split.
  - destruct (run_download_translate_shape self task chapters w)
      as (writes & Hw & [[e He]|(chapters' & progress & Hok)]);
      exists writes;
      (split; [eapply Forall_impl; [exact Hw|apply loading_write_cache_set]|]).
    + left. by exists e.
    + right. eexists _, _. split; [by eexists|]. exact Hok.
  - destruct (run_remove_shape self chapters remove_choices w)
      as (writes & Hw & [[e He]|(chapters' & Hok)]);
      exists writes;
      (split; [eapply Forall_impl; [exact Hw|apply removing_write_cache_set]|]).
    + left. by exists e.
    + right. eexists _, _. split; [by eexists|]. exact Hok.
Qed.

(** ** The translation-ready short-circuit: [QtConsumer.receive] *)

Section QtReceive.
Variable encode_name : string → string.
Variable int_of_str : string → option Z.

(** A translation-ready message for chapter [n] of the series [sid]: a
    [dict] with the series under ["toonkor_id"], a ["chapter"] that [int]
    turns into [n], and a ["progress"]. *)
Definition translation_ready (d : list (string * json)) (sid : string)
    (n : Z) (progress : json) : Prop :=
  dict_get "toonkor_id" d = Some (JStr sid) ∧
  (∃ c, dict_get "chapter" d = Some c ∧
        ∀ w, QtConsumer.py_int int_of_str c w = (Ok n, w)) ∧
  dict_get "progress" d = Some progress.

(** [QtConsumer.receive] on a translation-ready message that names a
    chapter of the store. *)
Lemma qt_receive_ready qt d sid n progress download translation w :
  translation_ready d sid n progress →
  store w !! (sid, n) = Some (download, translation) →
  QtConsumer.receive encode_name int_of_str qt (JDict d) w =
  (Ok (),
   mkWorld (<[(sid, n) := (download, READY)]> (store w))
     (<[(JStr sid, JInt n, "translation_status") := "READY"]> (cache w))
     (log w ++
      [StoreSave (mkChapter sid n download READY);
       CacheSet (JStr sid) (JInt n) "translation_status" "READY";
       GroupSend (group_prefix +:+ encode_name sid)
         (progress_message
            (JList [JDict [("index", JInt n); ("status", JStr "Translated")]])
            progress)])).
Proof.
  intros (Hid & (c & Hc & Hint) & Hp) Hrow. unfold QtConsumer.receive.
  erewrite bind_ok; [|unfold py_getitem; by rewrite Hid].
  erewrite bind_ok; [|unfold py_getitem; by rewrite Hc].
  erewrite bind_ok; [|apply Hint].
  erewrite bind_ok; [|unfold objects_get; by rewrite Hrow].
  do 3 run_ok.
  erewrite bind_ok; [|unfold py_getitem; by rewrite Hp].
  unfold group_send, emit, progress_message. cbn.
  by rewrite <- !app_assoc.
Qed.

(** What the short-circuit has done when it returns: the chapter's
    [translation_status] is [READY] in the store and ["READY"] in the Status
    Cache, and among the events added to the log there is exactly one
    broadcast, to the group of the series and about that chapter, and no
    submission to the downloader or the cleaner. *)
Definition marked_ready (qt : QtConsumer.t) (d : list (string * json))
    (sid : string) (n : Z) (w : world) : Prop :=
  ∃ w' events message download,
    QtConsumer.receive encode_name int_of_str qt (JDict d) w = (Ok (), w') ∧
    log w' = log w ++ events ∧
    store w' !! (sid, n) = Some (download, READY) ∧
    cache w' !! (JStr sid, JInt n, "translation_status") = Some "READY" ∧
    broadcasts events = [(group_prefix +:+ encode_name sid, message)] ∧
    field message "chapters"
      = Some (JList [JDict [("index", JInt n);
                            ("status", JStr "Translated")]]) ∧
    enqueued events = [].

(** C6, amended.  For every translation-ready message that carries a
    ["progress"] and names an existing chapter, [QtConsumer.receive] sets the
    chapter's [translation_status] to [READY] in the persisted store and in
    the Status Cache, and publishes exactly one message for that chapter to
    the group of the series, without handing any batch to the downloader or
    the cleaner. *)
Theorem translation_ready_marks_ready
    qt d sid n progress download translation w :
  translation_ready d sid n progress →
  store w !! (sid, n) = Some (download, translation) →
  marked_ready qt d sid n w.
Proof.
  intros Hmsg Hrow.
  eexists _, _, _, download. split_and!.
  - by eapply qt_receive_ready.
  - reflexivity.
  - apply lookup_insert_eq.
  - apply lookup_insert_eq.
  - reflexivity.
  - done.
  - done.
Qed.

(** What joining and publishing have in common: [connect] made the
    consumer [self] join its group, and the one message the short-circuit
    published went to that group. *)
Definition published_to_joined_group (channel : string) (self : t)
    (w1 : world) (qt : QtConsumer.t) (d : list (string * json)) (w : world)
    : Prop :=
  GroupAdd (group_name self) channel ∈ log w1 ∧
  ∃ w' events message,
    QtConsumer.receive encode_name int_of_str qt (JDict d) w = (Ok (), w') ∧
    log w' = log w ++ events ∧
    broadcasts events = [(group_name self, message)].

(** C5.  For every series identifier, the group that [QtConsumer.receive]
    publishes to, which it derives from the message's ["toonkor_id"], is the
    group that a [DownloadTranslateConsumer] serving that series (the series
    is its [manhwa_id]) joined in [connect]. *)
Theorem translation_ready_reaches_series_group
    channel url_id w0 self w1 qt d n progress download translation w :
  connect encode_name channel url_id w0 = (Ok self, w1) →
  translation_ready d (manhwa_id self) n progress →
  store w !! (manhwa_id self, n) = Some (download, translation) →
  published_to_joined_group channel self w1 qt d w.
Proof.
  intros Hconnect Hmsg Hrow.
  unfold connect in Hconnect. do 2 (erewrite bind_ok in Hconnect; [|done]).
  injection Hconnect as <- <-. split.
  - cbn. rewrite <- app_assoc. apply elem_of_app. right. by left.
  - eexists _, _, _. split_and!.
    + by eapply qt_receive_ready.
    + reflexivity.
    + reflexivity.
Qed.
End QtReceive.

(** A translation-ready message for chapter 5 of the series ["/abc"], a
    store that holds that chapter, and stand-ins for [encode_name] and for
    [int] on a [str]. *)
Definition ready_message : list (string * json) :=
  [("toonkor_id", JStr "/abc"); ("chapter", JInt 5);
   ("progress", JDict [("current", JInt 1); ("total", JInt 2)])].

Definition store_with_chapter_5 : world :=
  mkWorld {[ ("/abc", 5) := (READY, NONE) ]} ∅ [].

Definition encode_hyphen (s : string) : string :=
  string_filter (λ c, negb (is_sep c)) s.

Definition no_int_of_str (s : string) : option Z := None.

(** Checks that [ready_message] is translation-ready for chapter 5. *)
Ltac ready_message_is_ready :=
  split_and!;
  [ reflexivity
  | exists (JInt 5); split; [reflexivity | intros; reflexivity]
  | reflexivity ].

Lemma translation_ready_marks_ready_witness :
  translation_ready no_int_of_str ready_message "/abc" 5
    (JDict [("current", JInt 1); ("total", JInt 2)]) ∧
  store store_with_chapter_5 !! ("/abc", 5) = Some (READY, NONE) ∧
  marked_ready encode_hyphen no_int_of_str (QtConsumer.mk "qt" "channel.0")
    ready_message "/abc" 5 store_with_chapter_5.
Proof.
  split_and!; [ready_message_is_ready | reflexivity |].
  apply (translation_ready_marks_ready encode_hyphen no_int_of_str
           (QtConsumer.mk "qt" "channel.0") ready_message "/abc" 5
           (JDict [("current", JInt 1); ("total", JInt 2)]) READY NONE
           store_with_chapter_5);
    [ready_message_is_ready | reflexivity].
Defined.

(** C6, as stated, fails: the message [{"toonkor_id": "/abc", "chapter": 5}]
    names chapter 5 of the series ["/abc"], which the store holds, and
    carries no ["progress"].  [QtConsumer.receive] saves the chapter as
    [READY] and writes ["READY"] to the Status Cache, then raises
    [KeyError('progress')] where it builds the message: nothing is
    published. *)
Lemma translation_ready_without_progress_unpublished :
  let data := JDict [("toonkor_id", JStr "/abc"); ("chapter", JInt 5)] in
  let out :=
    QtConsumer.receive encode_hyphen no_int_of_str
      (QtConsumer.mk "qt" "channel.0") data store_with_chapter_5 in
  store store_with_chapter_5 !! ("/abc", 5) = Some (READY, NONE) ∧
  out.1 = Raise (KeyError "progress") ∧
  store out.2 !! ("/abc", 5) = Some (READY, READY) ∧
  cache out.2 !! (JStr "/abc", JInt 5, "translation_status") = Some "READY" ∧
  broadcasts (log out.2) = [].
Proof. vm_compute. by split_and!. Qed.

Lemma translation_ready_reaches_series_group_witness :
  let self := mk "/abc" (group_prefix +:+ encode_hyphen "/abc") "channel.1" in
  let w1 :=
    mkWorld ∅ ∅ [GroupAdd (group_name self) "channel.1"; Accept "channel.1"] in
  connect encode_hyphen "channel.1" "abc" empty_world = (Ok self, w1) ∧
  translation_ready no_int_of_str ready_message (manhwa_id self) 5
    (JDict [("current", JInt 1); ("total", JInt 2)]) ∧
  store store_with_chapter_5 !! (manhwa_id self, 5) = Some (READY, NONE) ∧
  published_to_joined_group encode_hyphen no_int_of_str "channel.1" self w1
    (QtConsumer.mk "qt" "channel.0") ready_message store_with_chapter_5.
Proof.
  split_and!;
    [reflexivity | ready_message_is_ready | reflexivity |].
  apply (translation_ready_reaches_series_group encode_hyphen no_int_of_str
           "channel.1" "abc" empty_world
           (mk "/abc" (group_prefix +:+ encode_hyphen "/abc") "channel.1")
           (mkWorld ∅ ∅
              [GroupAdd (group_prefix +:+ encode_hyphen "/abc") "channel.1";
               Accept "channel.1"])
           (QtConsumer.mk "qt" "channel.0") ready_message 5
           (JDict [("current", JInt 1); ("total", JInt 2)]) READY NONE
           store_with_chapter_5);
    [reflexivity | ready_message_is_ready | reflexivity].
Defined.

(** ** The file handler: [sanitize_and_copy_files] *)

(** A file system on which every call succeeds and changes nothing. *)
Definition makedirs_succeeds (name : string) (d : unit) : bool * unit :=
  (true, d).
Definition copy_succeeds (src dst : string) (d : unit)
    : copy_outcome * unit :=
  (Copied, d).

(** The path, if it is not ASCII, has a directory name of which a printable
    character is left: [os.makedirs] is not called on the empty name. *)
Definition names_a_directory (path : string) : bool :=
  isascii path || negb (string_is_empty (printable_only (dirname path))).

(** C10, as stated, fails: on the one-element list [["é.png"]], whose path
    is not ASCII and has no directory part, [sanitize_and_copy_files] calls
    [os.makedirs('')] and raises instead of returning a list, even on a file
    system that refuses nothing; so does [prepare_files], before it indexes
    the result. *)
Lemma sanitize_and_copy_files_raises_on_bare_name :
  isascii "é.png" = false ∧
  endswith_any (lower "é.png") FileHandler.archive_suffixes = false ∧
  (FileHandler.sanitize_and_copy_files unit makedirs_succeeds copy_succeeds
     ["é.png"] (FileHandler.init unit ())).1 = Raise OSError ∧
  (FileHandler.prepare_files unit makedirs_succeeds copy_succeeds
     (λ _ d, (None, d)) (λ _ _ d, (None, d))
     (FileHandler.mk unit ["é.png"] [] ())).1 = Raise OSError.
Proof. vm_compute. by split_and!. Qed.

Section FileHandlerSpec.
Variable fs : Type.
Variable makedirs : string → fs → bool * fs.
Variable copy : string → string → fs → copy_outcome * fs.

(** What [sanitize_and_copy_files] returns: a list as long as its input, in
    which every ASCII path stands unchanged at its position, so that the
    first element of the result of a non-empty input can be taken. *)
Definition same_length_ascii_unchanged (paths : list string)
    (self : FileHandler.t fs) : Prop :=
  ∃ res self',
    FileHandler.sanitize_and_copy_files fs makedirs copy paths self
      = (Ok res, self') ∧
    length res = length paths ∧
    (∀ i p, paths !! i = Some p → isascii p = true → res !! i = Some p) ∧
    (paths ≠ [] → ∃ first, py_first res self' = (Ok first, self')).

(** [sanitize_and_copy_files] when, for the paths of the list that are not
    ASCII, no [os.makedirs] call raises and no [shutil.copy] call raises
    anything but an [IOError]: it returns, position by position, the path
    itself if it is ASCII, and it touches nothing of the handler but the
    file system. *)
Lemma sanitize_and_copy_files_pointwise paths self :
  (∀ p d, p ∈ paths → isascii p = false →
     (makedirs (printable_only (dirname p)) d).1 = true) →
  (∀ p dst d, p ∈ paths → isascii p = false →
     copy_settles (copy p dst d).1 = true) →
  forallb names_a_directory paths = true →
  ∃ res self',
    FileHandler.sanitize_and_copy_files fs makedirs copy paths self
      = (Ok res, self') ∧
    Forall2 (λ p r, isascii p = true → r = p) paths res ∧
    FileHandler.file_paths fs self' = FileHandler.file_paths fs self ∧
    FileHandler.archive_info fs self' = FileHandler.archive_info fs self.
Proof.
  intros Hmk Hcopy Hdirs. unfold FileHandler.sanitize_and_copy_files.
  match goal with |- context [for_each ?b] => set (body := b) end.
  assert (Hbody : ∀ index path self,
    (∀ d, isascii path = false →
       (makedirs (printable_only (dirname path)) d).1 = true) →
    (∀ dst d, isascii path = false →
       copy_settles (copy path dst d).1 = true) →
    names_a_directory path = true →
    ∃ r self', body (index, path) self = (Ok r, self') ∧
      (isascii path = true → r = path) ∧
      FileHandler.file_paths fs self' = FileHandler.file_paths fs self ∧
      FileHandler.archive_info fs self' = FileHandler.archive_info fs self).
  { clear. intros index path self Hmk Hcopy Hdir. unfold body.
    unfold names_a_directory in Hdir.
    destruct (isascii path) eqn:Ea; cbn [negb].
    - eexists _, _. split; [reflexivity | done].
    - cbn [orb] in Hdir. apply negb_true_iff in Hdir.
      rewrite bind_unfold. unfold FileHandler.os_makedirs at 1. rewrite Hdir.
      pose proof (Hmk (FileHandler.disk fs self) eq_refl) as Hok.
      destruct (makedirs _ _) as [made d1]. simpl in Hok. subst made.
      destruct (string_is_empty (splitext (basename (printable_only path))).2);
        cbv beta iota zeta;
        rewrite bind_unfold; unfold FileHandler.try_copy at 1;
        cbn [FileHandler.disk];
        match goal with |- context [copy path ?dst d1] =>
          pose proof (Hcopy dst d1 eq_refl) as Hsettles;
          destruct (copy path dst d1) as [[| |e] d2]
        end; try done;
        eexists _, _; (split; [reflexivity | done]). }
  assert (Hloop : ∀ l (f : nat → string → nat * string) self,
    (∀ i x, (f i x).2 = x) →
    (∀ p d, p ∈ l → isascii p = false →
       (makedirs (printable_only (dirname p)) d).1 = true) →
    (∀ p dst d, p ∈ l → isascii p = false →
       copy_settles (copy p dst d).1 = true) →
    forallb names_a_directory l = true →
    ∃ res self', for_each body (imap f l) self = (Ok res, self') ∧
      Forall2 (λ p r, isascii p = true → r = p) l res ∧
      FileHandler.file_paths fs self' = FileHandler.file_paths fs self ∧
      FileHandler.archive_info fs self' = FileHandler.archive_info fs self).
  { clear -Hbody. induction l as [|p l IH]; intros f self Hf Hmk Hcopy Hl.
    - eexists _, _. split; [reflexivity|]. by split; [constructor|].
    - apply andb_prop in Hl as [Hp Hl]. cbn [imap for_each].
      pose proof (Hf 0%nat p) as Hf0. destruct (f 0%nat p) as [index p'].
      simpl in Hf0. subst p'.
      destruct (Hbody index p self) as (r & self1 & Hr & Hascii & Hp1 & Ha1);
        [intros; apply Hmk; [by left | done]
        |intros; apply Hcopy; [by left | done]
        |done|].
      destruct (IH (f ∘ S) self1 (λ i x, Hf (S i) x))
        as (res & self2 & Hres & Hall & Hp2 & Ha2);
        [intros; apply Hmk; [by right | done]
        |intros; apply Hcopy; [by right | done]
        |done|].
      exists (r :: res), self2. split_and!.
      + erewrite bind_ok by eassumption. by erewrite bind_ok by eassumption.
      + by constructor.
      + congruence.
      + congruence. }
  exact (Hloop paths pair self (λ _ _, eq_refl) Hmk Hcopy Hdirs).
Qed.

(** C10, amended.  For every input list of paths such that, for each of its
    paths that is not ASCII, no [os.makedirs] call raises (the path names a
    directory and the file system refuses none for it) and no [shutil.copy]
    call raises anything but an [IOError], [sanitize_and_copy_files] returns
    a list of exactly the same length as the input, with every ASCII path
    unchanged at its position; taking the first element of the result of a
    non-empty input, as [prepare_files] does, does not fail. *)
Theorem sanitize_and_copy_files_same_length paths self :
  (∀ p d, p ∈ paths → isascii p = false →
     (makedirs (printable_only (dirname p)) d).1 = true) →
  (∀ p dst d, p ∈ paths → isascii p = false →
     copy_settles (copy p dst d).1 = true) →
  forallb names_a_directory paths = true →
  same_length_ascii_unchanged paths self.
Proof.
  intros Hmk Hcopy Hdirs.
  destruct (sanitize_and_copy_files_pointwise paths self Hmk Hcopy Hdirs)
    as (res & self' & Hres & Hall & _).
  exists res, self'. split_and!.
  - exact Hres.
  - symmetry. by eapply Forall2_length.
  - intros i p Hi Hp.
    destruct (Forall2_lookup_l _ _ _ _ _ Hall Hi) as (r & Hr & Himp).
    by rewrite Hr, (Himp Hp).
  - intros Hne. destruct Hall; [done|]. by eexists.
Qed.

(** [path] does not end like an archive. *)
Definition is_plain_path (path : string) : bool :=
  negb (endswith_any (lower path) FileHandler.archive_suffixes).
End FileHandlerSpec.

Lemma sanitize_and_copy_files_same_length_witness :
  let paths := ["/tmp/é.png"; "a.png"] in
  (∀ p d, p ∈ paths → isascii p = false →
     (makedirs_succeeds (printable_only (dirname p)) d).1 = true) ∧
  (∀ p dst d, p ∈ paths → isascii p = false →
     copy_settles (copy_succeeds p dst d).1 = true) ∧
  forallb names_a_directory paths = true ∧
  same_length_ascii_unchanged unit makedirs_succeeds copy_succeeds paths
    (FileHandler.init unit ()).
Proof.
  split_and!; [intros; reflexivity | intros; reflexivity | reflexivity |].
  apply (sanitize_and_copy_files_same_length unit makedirs_succeeds
           copy_succeeds ["/tmp/é.png"; "a.png"] (FileHandler.init unit ()));
    [intros; reflexivity | intros; reflexivity | reflexivity].
Defined.

(** The amended claim needs the condition on [shutil.copy]: on the path
    ["d/é.png"], when the call raises [ValueError], as it does for a path
    with an embedded null character, the exception leaves
    [sanitize_and_copy_files] although [os.makedirs] succeeded. *)
Definition copy_raises_value_error (src dst : string) (d : unit)
    : copy_outcome * unit :=
  (CopyRaised ValueError, d).

Lemma sanitize_and_copy_files_raises_on_copy_error :
  names_a_directory "d/é.png" = true ∧
  (FileHandler.sanitize_and_copy_files unit makedirs_succeeds
     copy_raises_value_error ["d/é.png"] (FileHandler.init unit ())).1
  = Raise ValueError.
Proof. vm_compute. by split. Qed.

(** * Further properties of the consumers *)

(** ** The loops of the two dispatchers *)

(** The body of the loop of [run_download_translate]. *)
Definition loading_body (self : t) (task : json) (chapter : json)
    : M world json :=
  chapter ← py_setitem chapter "download_status" (JStr "LOADING");
  index ← py_getitem chapter "index";
  update_cached_chapter (JStr (manhwa_id self)) index
    "download_status" "LOADING";;
  if py_eq_str task "download_translate" then
    chapter ← py_setitem chapter "translation_status" (JStr "LOADING");
    index ← py_getitem chapter "index";
    update_cached_chapter (JStr (manhwa_id self)) index
      "translation_status" "LOADING";;
    mret chapter
  else mret chapter.

(** The body of the loop of [run_remove]. *)
Definition removing_body (self : t) (remove_choices : json) (chapter : json)
    : M world json :=
  downloaded ← py_getitem remove_choices "downloaded";
  chapter ←
    (if py_truthy downloaded then
       chapter ← py_setitem chapter "download_status" (JStr "REMOVING");
       index ← py_getitem chapter "index";
       update_cached_chapter (JStr (manhwa_id self)) index
         "download_status" "REMOVING";;
       mret chapter
     else mret chapter);
  translated ← py_getitem remove_choices "translated";
  if py_truthy translated then
    chapter ← py_setitem chapter "translation_status" (JStr "REMOVING");
    index ← py_getitem chapter "index";
    update_cached_chapter (JStr (manhwa_id self)) index
      "remove_status" "REMOVING";;
    mret chapter
  else mret chapter.

(** The two methods are their loop between the reading of the batch and
    the broadcast. *)
Lemma run_download_translate_loop self task chapters :
  run_download_translate self task chapters =
  (n ← py_len chapters;
   items ← py_iter chapters;
   items ← for_each (loading_body self task) items;
   group_send (group_name self)
     (progress_message (py_updated chapters items)
        (JDict [("current", JInt 0); ("total", JInt n)]));;
   downloader_append (manhwa_id self) (group_name self) task
     (py_updated chapters items)).
Proof. reflexivity. Qed.

Lemma run_remove_loop self chapters remove_choices :
  run_remove self chapters remove_choices =
  (items ← py_iter chapters;
   items ← for_each (removing_body self remove_choices) items;
   group_send (group_name self)
     (progress_message (py_updated chapters items) (JDict []));;
   cleaner_append (manhwa_id self) (group_name self)
     (py_updated chapters items) remove_choices).
Proof. reflexivity. Qed.

(** A loop whose every iteration returns. *)
Lemma for_each_ok {A B} (body : A → M world B) (f : A → B)
    (es : A → list event) l w :
  (∀ x w, x ∈ l → body x w = (Ok (f x), after (es x) w)) →
  for_each body l w = (Ok (f <$> l), after (l ≫= es) w).
Proof.
  revert w. induction l as [|x l IH]; intros w Hbody.
  - simpl. by rewrite after_nil.
  - cbn [for_each]. erewrite bind_ok; [|apply Hbody; by left].
    erewrite bind_ok; [|apply IH; intros y w' Hy; apply Hbody; by right].
    unfold mret, M_ret. by rewrite after_app.
Qed.

(** A loop that raises at [x], after the iterations on [l1] returned. *)
Lemma for_each_raise {W A B} (body : A → M W B) l1 x l2 ys e w w1 w2 :
  for_each body l1 w = (Ok ys, w1) →
  body x w1 = (Raise e, w2) →
  for_each body (l1 ++ x :: l2) w = (Raise e, w2).
Proof.
  revert ys w. induction l1 as [|y l1 IH]; intros ys w Hl1 Hx.
  - injection Hl1 as <- <-. simpl. by erewrite bind_raise.
  - cbn [for_each app] in *. rewrite bind_unfold in Hl1.
    destruct (body y w) as [[y'|e'] wy] eqn:Ey; [|done].
    rewrite bind_unfold in Hl1.
    destruct (for_each body l1 wy) as [[ys'|e'] w'] eqn:El1; [|done].
    injection Hl1 as <- <-.
    erewrite bind_ok by eassumption. erewrite bind_raise; [done|].
    by eapply IH.
Qed.

Lemma loading_body_ok self task ch w :
  is_chapter_ref ch = true →
  loading_body self task ch w =
  (Ok (loading_mark task ch), after (loading_writes self task ch) w).
Proof.
  intros (d & i & -> & Hi)%is_chapter_ref_inv.
  unfold loading_body, loading_mark, loading_writes, index_of.
  cbn [mark field]. rewrite Hi. cbn [default].
  run_ok.
  erewrite bind_ok; [|unfold py_getitem; by rewrite dict_get_set_ne, Hi].
  run_ok. destruct (py_eq_str task "download_translate"); [|done].
  run_ok.
  erewrite bind_ok; [|unfold py_getitem; by rewrite !dict_get_set_ne, Hi].
  run_ok. unfold mret, M_ret. by rewrite after_app.
Qed.

Lemma loading_body_no_index self task d w :
  dict_get "index" d = None →
  loading_body self task (JDict d) w = (Raise (KeyError "index"), w).
Proof.
  intros Hi. unfold loading_body. run_ok.
  erewrite bind_raise; [done|].
  unfold py_getitem. by rewrite dict_get_set_ne, Hi.
Qed.

Lemma removing_body_ok self remove_choices downloaded translated ch w :
  field remove_choices "downloaded" = Some downloaded →
  field remove_choices "translated" = Some translated →
  is_chapter_ref ch = true →
  removing_body self remove_choices ch w =
  (Ok (removing_mark (py_truthy downloaded) (py_truthy translated) ch),
   after (removing_writes self (py_truthy downloaded) (py_truthy translated)
            ch) w).
Proof.
  intros Hd Ht (d & i & -> & Hi)%is_chapter_ref_inv.
  destruct remove_choices as [| | | | |rc]; try done. simpl in Hd, Ht.
  unfold removing_body, removing_mark, removing_writes, index_of.
  cbn [field]. rewrite Hi. cbn [default].
  erewrite bind_ok; [|unfold py_getitem; by rewrite Hd].
  destruct (py_truthy downloaded).
  - rewrite bind_assoc. run_ok. rewrite bind_assoc.
    erewrite bind_ok; [|unfold py_getitem; by rewrite dict_get_set_ne, Hi].
    rewrite bind_assoc. do 2 run_ok.
    erewrite bind_ok; [|unfold py_getitem; by rewrite Ht].
    destruct (py_truthy translated); cbn [mark app]; [|done].
    run_ok.
    erewrite bind_ok; [|unfold py_getitem; by rewrite !dict_get_set_ne, Hi].
    run_ok. unfold mret, M_ret. by rewrite after_app.
  - run_ok. erewrite bind_ok; [|unfold py_getitem; by rewrite Ht].
    destruct (py_truthy translated); cbn [mark app].
    + run_ok.
      erewrite bind_ok; [|unfold py_getitem; by rewrite dict_get_set_ne, Hi].
      by run_ok.
    + unfold mret, M_ret. by rewrite after_nil.
Qed.

(** ** Messages that [receive] cannot serve *)

(** The first key that [receive] reads and the message lacks: ["task"],
    ["chapters"], and for the task ["remove"] also ["remove_choices"]. *)
Definition missing_field (d : list (string * json)) : option string :=
  match dict_get "task" d with
  | None => Some "task"
  | Some task =>
      match dict_get "chapters" d with
      | None => Some "chapters"
      | Some _ =>
          if py_eq_str task "remove" then
            match dict_get "remove_choices" d with
            | None => Some "remove_choices"
            | Some _ => None
            end
          else None
      end
  end.

(** X1.  A message that lacks ["task"], ["chapters"] or, for the task
    ["remove"], ["remove_choices"], makes [receive] raise [KeyError] on that
    key before it has done anything: the store, the Status Cache and the log
    are as they were. *)
Theorem receive_missing_field_raises self d key w :
  missing_field d = Some key →
  receive self (JDict d) w = (Raise (KeyError key), w).
Proof.
  unfold missing_field, receive. intros Hmiss.
  destruct (dict_get "task" d) as [task|] eqn:Htask.
  2:{ injection Hmiss as <-. erewrite bind_raise; [done|].
      unfold py_getitem. by rewrite Htask. }
  erewrite bind_ok; [|unfold py_getitem; by rewrite Htask].
  destruct (dict_get "chapters" d) as [chapters|] eqn:Hch.
  2:{ injection Hmiss as <-. erewrite bind_raise; [done|].
      unfold py_getitem. by rewrite Hch. }
  erewrite bind_ok; [|unfold py_getitem; by rewrite Hch].
  destruct (py_eq_str task "remove"); [|done].
  destruct (dict_get "remove_choices" d) as [rc|] eqn:Hrc; [done|].
  injection Hmiss as <-. erewrite bind_raise; [done|].
  unfold py_getitem. by rewrite Hrc.
Qed.

Lemma receive_missing_field_raises_witness :
  let d := [("task", JStr "remove"); ("chapters", JList [chapter_ref 1])] in
  missing_field d = Some "remove_choices" ∧
  receive series_abc (JDict d) empty_world
    = (Raise (KeyError "remove_choices"), empty_world).
Proof.
  split; [reflexivity|].
  apply (receive_missing_field_raises series_abc
           [("task", JStr "remove"); ("chapters", JList [chapter_ref 1])]
           "remove_choices" empty_world).
  reflexivity.
Defined.

(** ** Where [receive] sends a batch *)

Lemma py_getitem_pure v k (w : world) : ∃ r, py_getitem v k w = (r, w).
Proof.
  destruct v; try (eexists; reflexivity). simpl.
  destruct (dict_get k d); eexists; reflexivity.
Qed.

(** The events of one run of [receive]: Status Cache writes, and, when it
    returns, one broadcast to the group of the
    consumer followed by one submission, to the cleaner for the task
    ["remove"] and to the downloader, with the task, for every other one. *)
Definition receive_events (self : t) (events : list event) : Prop :=
  ∃ writes,
    Forall (λ e, is_cache_set e = true) writes ∧
    (events = writes ∨
     ∃ message submission,
       events = batch_events writes (group_name self) message submission ∧
       ((∃ task chapters,
           submission = DownloaderAppend (manhwa_id self) (group_name self)
                          task chapters ∧
           py_eq_str task "remove" = false) ∨
        (∃ chapters remove_choices,
           submission = CleanerAppend (manhwa_id self) (group_name self)
                          chapters remove_choices))).

Lemma receive_shape self data w :
  ∃ events, (receive self data w).2 = after events w ∧
            receive_events self events.
Proof.
  unfold receive.
  assert (Hnone : ∃ events, w = after events w ∧ receive_events self events).
  { exists []. split; [by rewrite after_nil|]. exists []. split; [done|].
    by left. }
  destruct (py_getitem_pure data "task" w) as [[task|e] Ht];
    [|by erewrite bind_raise by eassumption].
  erewrite bind_ok by eassumption.
  destruct (py_getitem_pure data "chapters" w) as [[chapters|e] Hc];
    [|by erewrite bind_raise by eassumption].
  erewrite bind_ok by eassumption.
  destruct (py_eq_str task "remove") eqn:Hremove.
  - destruct (py_getitem_pure data "remove_choices" w) as [[rc|e] Hrc];
      [|by erewrite bind_raise by eassumption].
    erewrite bind_ok by eassumption.
    destruct (run_remove_shape self chapters rc w)
      as (writes & Hw & [[e ->]|(chapters' & ->)]); eexists;
      (split; [reflexivity|]); exists writes;
      (split; [eapply Forall_impl;
                 [exact Hw|apply removing_write_cache_set]|]).
    + by left.
    + right. eexists _, _. split; [reflexivity|]. right. by eexists _, _.
  - destruct (run_download_translate_shape self task chapters w)
      as (writes & Hw & [[e ->]|(chapters' & progress & ->)]); eexists;
      (split; [reflexivity|]); exists writes;
      (split; [eapply Forall_impl;
                 [exact Hw|apply loading_write_cache_set]|]).
    + by left.
    + right. eexists _, _. split; [reflexivity|]. left. by eexists _, _.
Qed.

(** X2.  Whatever the message and the outcome, one run of [receive]
    publishes at most one message and submits at most one batch; a batch
    handed to the downloader never has the task ["remove"], and every
    submission carries the series and the group of the consumer. *)
Theorem receive_submits_at_most_one_batch self data w :
  ∃ events,
    (receive self data w).2 = after events w ∧
    (length (broadcasts events) ≤ 1)%nat ∧
    (length (enqueued events) ≤ 1)%nat ∧
    (∀ m g task chapters,
       DownloaderAppend m g task chapters ∈ events →
       py_eq_str task "remove" = false ∧
       m = manhwa_id self ∧ g = group_name self) ∧
    (∀ m g chapters remove_choices,
       CleanerAppend m g chapters remove_choices ∈ events →
       m = manhwa_id self ∧ g = group_name self).
Proof.
  destruct (receive_shape self data w) as (events & Hafter & writes & Hc & Hev).
  exists events. split; [done|].
  assert (∀ e, e ∈ writes → is_cache_set e = true) as Hin
    by (by apply Forall_forall).
  destruct Hev as [->|(message & submission & -> & Hsub)].
  - rewrite broadcasts_cache_sets, enqueued_cache_sets by done.
    split_and!; [simpl; lia | simpl; lia |..];
      intros; by match goal with H : _ ∈ writes |- _ => apply Hin in H end.
  - assert (is_enqueue submission = true) as Hs
      by (by destruct Hsub as [(? & ? & -> & _)|(? & ? & ->)]).
    rewrite broadcasts_batch_events by done.
    unfold batch_events, enqueued. rewrite filter_app.
    fold (enqueued writes). rewrite enqueued_cache_sets by done.
    split_and!.
    + simpl; lia.
    + destruct submission; try done; simpl; lia.
    + intros m g task chapters [Hi|Hi]%elem_of_app; [by apply Hin in Hi|].
      apply elem_of_cons in Hi as [Hi|Hi]; [done|].
      apply list_elem_of_singleton in Hi as <-.
      destruct Hsub as [(? & ? & [= <- <- <- <-] & ?)|(? & ? & ?)]; done.
    + intros m g chapters rc [Hi|Hi]%elem_of_app; [by apply Hin in Hi|].
      apply elem_of_cons in Hi as [Hi|Hi]; [done|].
      apply list_elem_of_singleton in Hi as <-.
      destruct Hsub as [(? & ? & ? & ?)|(? & ? & [= <- <- <- <-])]; done.
Qed.

(** ** Batches that make [run_download_translate] raise *)

(** What is left of a run that stopped on [KeyError "index"]: Status Cache
    writes only, hence no broadcast and no submission, and the
    [download_status] entry of every chapter of [before] holds ["LOADING"]. *)
Definition stopped_on_missing_index (self : t) (before : list json)
    (w : world) (out : result unit * world) : Prop :=
  ∃ writes,
    out = (Raise (KeyError "index"), after writes w) ∧
    Forall (λ e, is_cache_set e = true) writes ∧
    broadcasts writes = [] ∧
    enqueued writes = [] ∧
    ∀ n ch, before !! n = Some ch →
      cache (after writes w)
        !! (JStr (manhwa_id self), index_of ch, "download_status")
        = Some "LOADING".

(** X3.  When a chapter of the batch is a [dict] without ["index"] and the
    chapters before it are chapter references, [run_download_translate]
    raises [KeyError] on ["index"]: nothing is published or submitted, but
    the chapters before it are already marked ["LOADING"] in the Status
    Cache. *)
Theorem run_download_translate_stops_at_missing_index
    self task before d rest w :
  forallb is_chapter_ref before = true →
  dict_get "index" d = None →
  stopped_on_missing_index self before w
    (run_download_translate self task (JList (before ++ JDict d :: rest)) w).
Proof.
  intros Hbefore Hd. exists (before ≫= loading_writes self task).
  pose proof (loading_writes_sound self task before) as Hw.
  assert (Forall (λ e, is_cache_set e = true)
            (before ≫= loading_writes self task)) as Hc.
  { eapply Forall_impl; [exact Hw|]. apply loading_write_cache_set. }
  split_and!.
  - rewrite run_download_translate_loop. do 2 run_ok.
    erewrite bind_raise; [done|].
    eapply for_each_raise; [|by apply loading_body_no_index].
    apply for_each_ok. intros ch w' Hch. apply loading_body_ok.
    rewrite forallb_forall in Hbefore. by apply Hbefore, list_elem_of_In.
  - done.
  - by apply broadcasts_cache_sets.
  - by apply enqueued_cache_sets.
  - intros n ch Hn. unfold after. cbn [cache].
    eapply cache_after_loading; [done|]. by eapply loading_writes_download.
Qed.

Lemma run_download_translate_stops_at_missing_index_witness :
  forallb is_chapter_ref [chapter_ref 1] = true ∧
  dict_get "index" [("title", JStr "two")] = None ∧
  stopped_on_missing_index series_abc [chapter_ref 1] empty_world
    (run_download_translate series_abc (JStr "download")
       (JList ([chapter_ref 1]
               ++ JDict [("title", JStr "two")] :: [chapter_ref 3]))
       empty_world).
Proof.
  split_and!; [reflexivity..|].
  apply (run_download_translate_stops_at_missing_index series_abc
           (JStr "download") [chapter_ref 1] [("title", JStr "two")]
           [chapter_ref 3] empty_world); reflexivity.
Defined.

(** ** What the two dispatchers leave alone *)

(** X4.  Whatever the arguments and the outcome, [run_download_translate]
    and [run_remove] leave the persisted store as it is and change no Status
    Cache entry of another series than the consumer's. *)
Theorem dispatchers_leave_other_series
    self task chapters remove_choices m i f w :
  m ≠ JStr (manhwa_id self) →
  let w1 := (run_download_translate self task chapters w).2 in
  let w2 := (run_remove self chapters remove_choices w).2 in
  store w1 = store w ∧ cache w1 !! (m, i, f) = cache w !! (m, i, f) ∧
  store w2 = store w ∧ cache w2 !! (m, i, f) = cache w !! (m, i, f).
Proof.
  intros Hm w1 w2.
  assert (∀ writes, Forall (λ e, ∃ i' f' v,
            e = CacheSet (JStr (manhwa_id self)) i' f' v) writes →
          cache_after writes (cache w) !! (m, i, f) = cache w !! (m, i, f))
    as Hframe.
  { intros writes Hw. apply cache_after_frame.
    eapply Forall_impl; [exact Hw|].
    intros e (i' & f' & v & ->) m' i'' f'' v' [= <- <- <- <-] [= <- _ _].
    done. }
  subst w1 w2.
  destruct (run_download_translate_shape self task chapters w)
    as (ws1 & H1 & [[e ->]|(chapters' & progress & ->)]);
  destruct (run_remove_shape self chapters remove_choices w)
    as (ws2 & H2 & [[e' ->]|(chapters'' & ->)]);
  cbn [snd after store cache]; rewrite ?batch_events_cache by done;
  (split_and!; [done | | done | ]; apply Hframe;
   (eapply Forall_impl; [eassumption|]);
   intros ? (? & ? & -> & _); by eexists _, _, _).
Qed.

Lemma dispatchers_leave_other_series_witness :
  JStr "/xyz" ≠ JStr (manhwa_id series_abc) ∧
  let w1 :=
    (run_download_translate series_abc (JStr "download")
       (JList [chapter_ref 1]) empty_world).2 in
  let w2 :=
    (run_remove series_abc (JList [chapter_ref 1]) JNull empty_world).2 in
  store w1 = store empty_world ∧
  cache w1 !! (JStr "/xyz", JInt 1, "download_status")
    = cache empty_world !! (JStr "/xyz", JInt 1, "download_status") ∧
  store w2 = store empty_world ∧
  cache w2 !! (JStr "/xyz", JInt 1, "download_status")
    = cache empty_world !! (JStr "/xyz", JInt 1, "download_status").
Proof.
  split; [discriminate|].
  apply (dispatchers_leave_other_series series_abc (JStr "download")
           (JList [chapter_ref 1]) JNull (JStr "/xyz") (JInt 1)
           "download_status" empty_world).
  discriminate.
Defined.

(** ** Empty batches *)

(** X5.  An empty batch is served like any other: [run_download_translate]
    publishes a message with the counter [{current: 0, total: 0}] and hands
    the empty batch to the downloader; [run_remove] publishes and hands it
    to the cleaner without ever reading [remove_choices], which may be any
    object. *)
Theorem empty_batch_is_published self task remove_choices w :
  run_download_translate self task (JList []) w =
    (Ok (),
     after [GroupSend (group_name self)
              (progress_message (JList [])
                 (JDict [("current", JInt 0); ("total", JInt 0)]));
            DownloaderAppend (manhwa_id self) (group_name self) task
              (JList [])] w) ∧
  run_remove self (JList []) remove_choices w =
    (Ok (),
     after [GroupSend (group_name self)
              (progress_message (JList []) (JDict []));
            CleanerAppend (manhwa_id self) (group_name self) (JList [])
              remove_choices] w).
Proof.
  split.
  - rewrite (run_download_translate_chapters self task [] w) by done.
    done.
  - rewrite run_remove_loop. do 3 run_ok.
    unfold cleaner_append. rewrite emit_after by done.
    by rewrite after_app.
Qed.

(** ** Removal requests *)

(** X6.  When both removal choices are false, [run_remove] writes nothing
    to the Status Cache and publishes and submits the chapters exactly as
    they came, whatever they are. *)
Theorem remove_nothing_changes_nothing
    self l remove_choices downloaded translated w :
  field remove_choices "downloaded" = Some downloaded →
  py_truthy downloaded = false →
  field remove_choices "translated" = Some translated →
  py_truthy translated = false →
  run_remove self (JList l) remove_choices w =
    (Ok (),
     after [GroupSend (group_name self)
              (progress_message (JList l) (JDict []));
            CleanerAppend (manhwa_id self) (group_name self) (JList l)
              remove_choices] w).
Proof.
  intros Hd Hdf Ht Htf. rewrite run_remove_loop. run_ok.
  destruct remove_choices as [| | | | |rc]; try done. simpl in Hd, Ht.
  erewrite bind_ok.
  2:{ apply (for_each_ok _ id (λ _, [])). intros ch w' _.
      unfold removing_body.
      erewrite bind_ok; [|unfold py_getitem; by rewrite Hd].
      rewrite Hdf. run_ok.
      erewrite bind_ok; [|unfold py_getitem; by rewrite Ht].
      rewrite Htf. unfold mret, M_ret. by rewrite after_nil. }
  rewrite list_fmap_id.
  replace (l ≫= (λ _ : json, [] : list event)) with ([] : list event)
    by (induction l; [done | by csimpl]).
  rewrite after_nil. run_ok.
  unfold cleaner_append. rewrite emit_after by done. by rewrite after_app.
Qed.

Lemma remove_nothing_changes_nothing_witness :
  let targets :=
    JDict [("downloaded", JBool false); ("translated", JInt 0)] in
  field targets "downloaded" = Some (JBool false) ∧
  py_truthy (JBool false) = false ∧
  field targets "translated" = Some (JInt 0) ∧
  py_truthy (JInt 0) = false ∧
  run_remove series_abc (JList [chapter_ref 1; JStr "two"]) targets empty_world =
    (Ok (),
     after [GroupSend (group_name series_abc)
              (progress_message (JList [chapter_ref 1; JStr "two"]) (JDict []));
            CleanerAppend (manhwa_id series_abc) (group_name series_abc)
              (JList [chapter_ref 1; JStr "two"]) targets] empty_world).
Proof.
  split_and!; [reflexivity..|].
  apply (remove_nothing_changes_nothing series_abc
           [chapter_ref 1; JStr "two"]
           (JDict [("downloaded", JBool false); ("translated", JInt 0)])
           (JBool false) (JInt 0) empty_world); reflexivity.
Defined.

(** An entry written by [run_remove] holds ["REMOVING"]. *)
Lemma cache_after_removing self writes c i f :
  Forall (removing_write self) writes →
  CacheSet (JStr (manhwa_id self)) i f "REMOVING" ∈ writes →
  cache_after writes c !! (JStr (manhwa_id self), i, f) = Some "REMOVING".
Proof.
  intros Hall Hin. apply cache_after_written; [done|].
  eapply Forall_impl; [exact Hall|].
  intros e (i' & f' & -> & _) v' [= _ _ <-]. done.
Qed.

(** What [run_remove] has done when it returns from a request to remove
    the downloaded artifacts: when the one message is published, that is
    after [writes], the [download_status] entry of every chapter of the
    batch holds ["REMOVING"], and so does the field of every chapter in the
    message. *)
Definition download_marked_removing (self : t) (chapters : list json)
    (remove_choices : json) (w : world) : Prop :=
  ∃ writes chapters',
    let message := progress_message (JList chapters') (JDict []) in
    let events :=
      batch_events writes (group_name self) message
        (CleanerAppend (manhwa_id self) (group_name self) (JList chapters')
           remove_choices) in
    run_remove self (JList chapters) remove_choices w
      = (Ok (), after events w) ∧
    Forall (λ e, is_cache_set e = true) writes ∧
    length chapters' = length chapters ∧
    ∀ n ch, chapters !! n = Some ch →
      cache_after writes (cache w)
        !! (JStr (manhwa_id self), index_of ch, "download_status")
        = Some "REMOVING" ∧
      ∃ ch', chapters' !! n = Some ch' ∧
        index_of ch' = index_of ch ∧
        field ch' "download_status" = Some (JStr "REMOVING").

(** X7.  For every removal request on chapter references whose targets have
    [downloaded] true, [run_remove] sets each listed chapter's
    [download_status] to ["REMOVING"], in the Status Cache and in the
    broadcast chapter list, before it publishes the message. *)
Theorem remove_downloaded_marks_removing
    self chapters remove_choices downloaded translated w :
  field remove_choices "downloaded" = Some downloaded →
  py_truthy downloaded = true →
  field remove_choices "translated" = Some translated →
  forallb is_chapter_ref chapters = true →
  download_marked_removing self chapters remove_choices w.
Proof.
  intros Hd Hdt Ht Hl.
  pose proof (run_remove_chapters self chapters remove_choices
                downloaded translated w Hd Ht Hl) as Hrun.
  rewrite Hdt in Hrun. cbv zeta in Hrun.
  set (tr := py_truthy translated) in *.
  exists (chapters ≫= removing_writes self true tr),
         (removing_mark true tr <$> chapters).
  pose proof (removing_writes_sound self true tr chapters) as Hw.
  cbv zeta. split_and!.
  - exact Hrun.
  - eapply Forall_impl; [exact Hw|]. apply removing_write_cache_set.
  - apply length_fmap.
  - intros n ch Hn.
    assert (is_chapter_ref ch = true) as Hch.
    { rewrite forallb_forall in Hl. apply Hl, list_elem_of_In.
      by eapply list_elem_of_lookup_2. }
    split.
    + eapply cache_after_removing; [done|].
      apply list_elem_of_bind. exists ch.
      split; [|by eapply list_elem_of_lookup_2].
      unfold removing_writes. apply elem_of_app. left. by left.
    + exists (removing_mark true tr ch).
      rewrite list_lookup_fmap, Hn. unfold removing_mark.
      split; [done|]. destruct tr.
      * rewrite !index_of_mark by done. split; [done|].
        rewrite field_mark_ne by done. by apply field_mark_eq.
      * rewrite index_of_mark by done. split; [done|].
        by apply field_mark_eq.
Qed.

Lemma remove_downloaded_marks_removing_witness :
  let targets :=
    JDict [("downloaded", JBool true); ("translated", JBool false)] in
  field targets "downloaded" = Some (JBool true) ∧
  py_truthy (JBool true) = true ∧
  field targets "translated" = Some (JBool false) ∧
  forallb is_chapter_ref [chapter_ref 3] = true ∧
  download_marked_removing series_abc [chapter_ref 3] targets empty_world.
Proof.
  split_and!; [reflexivity..|].
  apply (remove_downloaded_marks_removing series_abc [chapter_ref 3]
           (JDict [("downloaded", JBool true); ("translated", JBool false)])
           (JBool true) (JBool false) empty_world); reflexivity.
Defined.

(** X8.  Whatever the arguments and the outcome, [run_remove] changes no
    [translation_status] entry of the Status Cache: the fields it writes are
    [download_status] and [remove_status]. *)
Theorem run_remove_never_writes_translation_status
    self chapters remove_choices w :
  (∀ m i,
     cache (run_remove self chapters remove_choices w).2
       !! (m, i, "translation_status")
     = cache w !! (m, i, "translation_status")) ∧
  ∃ events,
    (run_remove self chapters remove_choices w).2 = after events w ∧
    ∀ m i f v, CacheSet m i f v ∈ events →
      f = "download_status" ∨ f = "remove_status".
Proof.
  destruct (run_remove_shape self chapters remove_choices w)
    as (writes & Hw & [[e ->]|(chapters' & ->)]); cbn [snd after cache].
  - split; [intros m i; by eapply removing_writes_frame|].
    exists writes. split; [done|]. intros m i f v Hin.
    rewrite Forall_forall in Hw.
    by destruct (Hw _ Hin) as (? & ? & [= _ _ -> _] & ?).
  - split.
    + intros m i. rewrite batch_events_cache by done.
      by eapply removing_writes_frame.
    + eexists. split; [reflexivity|]. intros m i f v Hin.
      unfold batch_events in Hin. apply elem_of_app in Hin as [Hin|Hin].
      * rewrite Forall_forall in Hw.
        by destruct (Hw _ Hin) as (? & ? & [= _ _ -> _] & ?).
      * apply elem_of_cons in Hin as [?|Hin]; [done|].
        by apply list_elem_of_singleton in Hin.
Qed.

(** X9.  When the targets lack ["translated"] and [downloaded] is true,
    [run_remove] raises [KeyError] on ["translated"] in its first iteration:
    no message is published and nothing is submitted, but the first
    chapter's [download_status] entry is already ["REMOVING"]. *)
Theorem run_remove_stops_at_missing_choice
    self ch rest remove_choices downloaded w :
  field remove_choices "downloaded" = Some downloaded →
  py_truthy downloaded = true →
  field remove_choices "translated" = None →
  is_chapter_ref ch = true →
  run_remove self (JList (ch :: rest)) remove_choices w =
    (Raise (KeyError "translated"),
     after [CacheSet (JStr (manhwa_id self)) (index_of ch)
              "download_status" "REMOVING"] w).
Proof.
  intros Hd Hdt Ht (d & i & -> & Hi)%is_chapter_ref_inv.
  destruct remove_choices as [| | | | |rc]; try done. simpl in Hd, Ht.
  rewrite run_remove_loop. run_ok.
  erewrite bind_raise; [done|].
  apply (for_each_raise _ [] _ _ [] _ w w); [done|].
  unfold removing_body, index_of. cbn [field]. rewrite Hi. cbn [default].
  erewrite bind_ok; [|unfold py_getitem; by rewrite Hd].
  rewrite Hdt, bind_assoc. run_ok. rewrite bind_assoc.
  erewrite bind_ok; [|unfold py_getitem; by rewrite dict_get_set_ne, Hi].
  rewrite bind_assoc. do 2 run_ok.
  erewrite bind_raise; [done|]. unfold py_getitem. by rewrite Ht.
Qed.

Lemma run_remove_stops_at_missing_choice_witness :
  let targets := JDict [("downloaded", JBool true)] in
  field targets "downloaded" = Some (JBool true) ∧
  py_truthy (JBool true) = true ∧
  field targets "translated" = None ∧
  is_chapter_ref (chapter_ref 3) = true ∧
  run_remove series_abc (JList (chapter_ref 3 :: [chapter_ref 4])) targets
    empty_world =
    (Raise (KeyError "translated"),
     after [CacheSet (JStr (manhwa_id series_abc)) (index_of (chapter_ref 3))
              "download_status" "REMOVING"] empty_world).
Proof.
  split_and!; [reflexivity..|].
  apply (run_remove_stops_at_missing_choice series_abc (chapter_ref 3)
           [chapter_ref 4] (JDict [("downloaded", JBool true)]) (JBool true)
           empty_world); reflexivity.
Defined.

(** ** Submitting a batch again *)

(** The last value the events [es] write under [key], if they write one. *)
Definition last_write (key : json * json * string) (es : list event)
    : option string :=
  foldl (λ acc e,
    match e with
    | CacheSet m i f v => if decide ((m, i, f) = key) then Some v else acc
    | _ => acc
    end) None es.

Lemma cache_after_lookup es c key :
  cache_after es c !! key = from_option Some (c !! key) (last_write key es).
Proof.
  induction es as [|e es IH] using rev_ind; [done|].
  unfold last_write. rewrite cache_after_app, foldl_app.
  fold (last_write key es). destruct e; try exact IH. simpl.
  rewrite lookup_insert. by case_decide.
Qed.

(** Replaying the same writes over their own result changes nothing. *)
Lemma cache_after_idemp es c : cache_after es (cache_after es c) = cache_after es c.
Proof.
  apply map_eq. intros key. rewrite !cache_after_lookup.
  by destruct (last_write key es).
Qed.

Lemma dict_set_same k v d : dict_get k d = Some v → dict_set k v d = d.
Proof.
  induction d as [|[k' v'] d IH]; [done|]. simpl.
  destruct (decide (k = k')) as [->|Hne]; [by intros [= ->]|].
  intros Hd. by rewrite IH.
Qed.

Lemma mark_same k v ch : field ch k = Some (JStr v) → mark k v ch = ch.
Proof.
  destruct ch; try done. simpl. intros Hd. by rewrite dict_set_same.
Qed.

Lemma loading_mark_idemp task ch :
  is_chapter_ref ch = true →
  loading_mark task (loading_mark task ch) = loading_mark task ch.
Proof.
  intros Hch. unfold loading_mark.
  destruct (py_eq_str task "download_translate").
  - rewrite (mark_same "download_status").
    + apply mark_same, field_mark_eq. by rewrite is_chapter_ref_mark.
    + rewrite field_mark_ne by done. by apply field_mark_eq.
  - apply mark_same. by apply field_mark_eq.
Qed.

Lemma loading_mark_index task ch :
  index_of (loading_mark task ch) = index_of ch.
Proof.
  unfold loading_mark. destruct (py_eq_str task "download_translate");
    by rewrite !index_of_mark.
Qed.

Lemma loading_mark_is_chapter_ref task ch :
  is_chapter_ref (loading_mark task ch) = is_chapter_ref ch.
Proof.
  unfold loading_mark. destruct (py_eq_str task "download_translate");
    by rewrite !is_chapter_ref_mark.
Qed.

(** What submitting a batch and then the chapter list of its message again
    comes to: both runs return and publish the same message, and the second
    run leaves the Status Cache as the first left it. *)
Definition resubmission_is_stable (self : t) (task : json)
    (chapters : list json) (w : world) : Prop :=
  ∃ events1 events2 message chapters',
    run_download_translate self task (JList chapters) w
      = (Ok (), after events1 w) ∧
    broadcasts events1 = [(group_name self, message)] ∧
    field message "chapters" = Some (JList chapters') ∧
    run_download_translate self task (JList chapters') (after events1 w)
      = (Ok (), after events2 (after events1 w)) ∧
    broadcasts events2 = [(group_name self, message)] ∧
    cache (after events2 (after events1 w)) = cache (after events1 w).

(** X10.  The optimistic update is idempotent: when the chapter list that
    [run_download_translate] published for a batch of chapter references is
    submitted again with the same task, the same message is published and
    the Status Cache does not change. *)
Theorem run_download_translate_resubmission self task chapters w :
  forallb is_chapter_ref chapters = true →
  resubmission_is_stable self task chapters w.
Proof.
  intros Hl.
  set (marked := loading_mark task <$> chapters).
  assert (forallb is_chapter_ref marked = true) as Hmarked.
  { rewrite forallb_forall in *. intros ch' Hin.
    apply list_elem_of_In, list_elem_of_fmap in Hin as (ch & -> & Hin).
    rewrite loading_mark_is_chapter_ref. by apply Hl, list_elem_of_In. }
  assert (loading_mark task <$> marked = marked) as Hidem.
  { unfold marked. rewrite <- list_fmap_compose.
    apply list_fmap_ext. intros n ch Hn. simpl. apply loading_mark_idemp.
    rewrite forallb_forall in Hl. apply Hl, list_elem_of_In.
    by eapply list_elem_of_lookup_2. }
  assert (marked ≫= loading_writes self task
          = chapters ≫= loading_writes self task) as Hwrites.
  { unfold marked. rewrite list_fmap_bind.
    apply list_bind_ext; [|done]. intros ch. simpl.
    unfold loading_writes. by rewrite loading_mark_index. }
  assert (Forall (λ e, is_cache_set e = true)
            (chapters ≫= loading_writes self task)) as Hc.
  { eapply Forall_impl; [apply loading_writes_sound|].
    apply loading_write_cache_set. }
  eexists _, _, _, marked. split_and!.
  - by apply run_download_translate_chapters.
  - by apply broadcasts_batch_events.
  - reflexivity.
  - by apply run_download_translate_chapters.
  - rewrite Hidem, Hwrites. unfold marked at 2. rewrite length_fmap.
    by apply broadcasts_batch_events.
  - unfold after. cbn [cache]. rewrite !batch_events_cache by done.
    rewrite Hwrites. apply cache_after_idemp.
Qed.

Lemma run_download_translate_resubmission_witness :
  forallb is_chapter_ref [chapter_ref 1; chapter_ref 2] = true ∧
  resubmission_is_stable series_abc (JStr "download_translate")
    [chapter_ref 1; chapter_ref 2] empty_world.
Proof.
  split; [reflexivity|].
  apply (run_download_translate_resubmission series_abc
           (JStr "download_translate") [chapter_ref 1; chapter_ref 2]
           empty_world).
  reflexivity.
Defined.

(** What [run_download_translate] has published for a batch whose task is
    not ["download_translate"]: one message, in which every chapter has its
    [download_status] set to ["LOADING"] and the [translation_status] field,
    or the lack of one, it came with. *)
Definition published_download_only (self : t) (task : json)
    (chapters : list json) (w : world) : Prop :=
  ∃ events chapters' progress,
    run_download_translate self task (JList chapters) w
      = (Ok (), after events w) ∧
    broadcasts events
      = [(group_name self, progress_message (JList chapters') progress)] ∧
    length chapters' = length chapters ∧
    ∀ n ch, chapters !! n = Some ch →
      ∃ ch', chapters' !! n = Some ch' ∧
        index_of ch' = index_of ch ∧
        field ch' "download_status" = Some (JStr "LOADING") ∧
        field ch' "translation_status" = field ch "translation_status".

(** X11.  For every batch of chapter references whose task is not
    ["download_translate"] (["download"] in particular), the chapter list
    that [run_download_translate] publishes has [download_status] set to
    ["LOADING"] and every chapter's [translation_status] as it came. *)
Theorem download_batch_keeps_translation_status self task chapters w :
  py_eq_str task "download_translate" = false →
  forallb is_chapter_ref chapters = true →
  published_download_only self task chapters w.
Proof.
  intros Ht Hl. eexists _, (loading_mark task <$> chapters), _. split_and!.
  - by apply run_download_translate_chapters.
  - apply broadcasts_batch_events; [|done].
    eapply Forall_impl; [apply loading_writes_sound|].
    apply loading_write_cache_set.
  - apply length_fmap.
  - intros n ch Hn. exists (loading_mark task ch).
    rewrite list_lookup_fmap, Hn. split; [done|].
    rewrite loading_mark_index. split; [done|].
    unfold loading_mark. rewrite Ht. split.
    + apply field_mark_eq. rewrite forallb_forall in Hl.
      apply Hl, list_elem_of_In. by eapply list_elem_of_lookup_2.
    + by rewrite field_mark_ne.
Qed.

Lemma download_batch_keeps_translation_status_witness :
  let chapters :=
    [JDict [("index", JInt 1); ("translation_status", JStr "READY")]] in
  py_eq_str (JStr "download") "download_translate" = false ∧
  forallb is_chapter_ref chapters = true ∧
  published_download_only series_abc (JStr "download") chapters empty_world.
Proof.
  split_and!; [reflexivity..|].
  apply (download_batch_keeps_translation_status series_abc (JStr "download")
           [JDict [("index", JInt 1); ("translation_status", JStr "READY")]]
           empty_world); reflexivity.
Defined.

(** * Further properties of the translation-ready short-circuit *)

Section QtFurther.
Variable encode_name : string → string.
Variable int_of_str : string → option Z.

(** The world after the chapter [(sid, n)] was saved and cached as ready,
    before anything is published. *)
Definition ready_world (sid : string) (n : Z) (download : StatusChoices)
    (w : world) : world :=
  mkWorld (<[(sid, n) := (download, READY)]> (store w))
    (<[(JStr sid, JInt n, "translation_status") := "READY"]> (cache w))
    (log w ++
     [StoreSave (mkChapter sid n download READY);
      CacheSet (JStr sid) (JInt n) "translation_status" "READY"]).

(** The three outcomes of [QtConsumer.receive]: it raised before any effect;
    it marked a chapter of the store ready and raised on the missing
    ["progress"]; it marked the chapter ready and published one message to
    the group of its series. *)
Definition qt_receive_outcome (w : world) (out : result unit * world)
    : Prop :=
  (∃ e, out = (Raise e, w)) ∨
  ∃ sid n download translation,
    store w !! (sid, n) = Some (download, translation) ∧
    (out = (Raise (KeyError "progress"), ready_world sid n download w) ∨
     ∃ progress,
       out = (Ok (),
              after [GroupSend (group_prefix +:+ encode_name sid)
                       (progress_message
                          (JList [JDict [("index", JInt n);
                                         ("status", JStr "Translated")]])
                          progress)]
                (ready_world sid n download w))).

(** Whatever the message, [QtConsumer.receive] has one of these three
    outcomes. *)
Lemma qt_receive_cases qt data w :
  qt_receive_outcome w
    (QtConsumer.receive encode_name int_of_str qt data w).
Proof.
  unfold QtConsumer.receive, qt_receive_outcome.
  destruct (py_getitem_pure data "toonkor_id" w) as [[toonkor_id|e] Hid];
    [|left; exists e; by erewrite bind_raise by eassumption].
  erewrite bind_ok by eassumption.
  destruct (py_getitem_pure data "chapter" w) as [[c|e] Hc];
    [|left; exists e; by erewrite bind_raise by eassumption].
  erewrite bind_ok by eassumption.
  assert (∃ r, QtConsumer.py_int int_of_str c w = (r, w)) as [[n|e] Hn].
  { destruct c; try (eexists; reflexivity). simpl.
    destruct (int_of_str s); eexists; reflexivity. }
  2:{ left. exists e. by erewrite bind_raise by eassumption. }
  erewrite bind_ok by eassumption.
  destruct toonkor_id as [| | |sid| |];
    try (left; eexists; erewrite bind_raise; [reflexivity|reflexivity]).
  destruct (store w !! (sid, n)) as [[download translation]|] eqn:Hrow.
  2:{ left. eexists. erewrite bind_raise; [reflexivity|].
      unfold objects_get. by rewrite Hrow. }
  right. exists sid, n, download, translation. split; [done|].
  erewrite bind_ok; [|unfold objects_get; by rewrite Hrow].
  do 3 run_ok.
  destruct (py_getitem_pure data "progress"
              (after [CacheSet (JStr sid) (JInt n) "translation_status" "READY"]
                 (mkWorld (<[(sid, n) := (download, READY)]> (store w))
                    (cache w)
                    (log w ++ [StoreSave (mkChapter sid n download READY)]))))
    as [[progress|e] Hp].
  - right. exists progress. erewrite bind_ok by exact Hp.
    unfold group_send. rewrite emit_after by done.
    unfold ready_world, after, progress_message. cbn.
    by rewrite <- !app_assoc.
  - left. erewrite bind_raise by exact Hp.
    assert (e = KeyError "progress") as ->.
    { destruct data; simpl in Hp; try done.
      destruct (dict_get "progress" d); [done | by injection Hp]. }
    unfold ready_world, after. cbn. by rewrite <- !app_assoc.
Qed.

(** X12.  Whatever the message and the outcome, [QtConsumer.receive] hands
    nothing to the downloader or the cleaner and publishes at most one
    message; when it publishes one, it has returned normally, the message
    went to the group of a series, and a chapter of that series is [READY] in
    the store and ["READY"] in the Status Cache. *)
Theorem qt_receive_publishes_only_after_marking qt data w :
  let out := QtConsumer.receive encode_name int_of_str qt data w in
  ∃ events,
    log out.2 = log w ++ events ∧
    enqueued events = [] ∧
    (broadcasts events = [] ∨
     ∃ sid n download message,
       broadcasts events = [(group_prefix +:+ encode_name sid, message)] ∧
       out.1 = Ok () ∧
       store out.2 !! (sid, n) = Some (download, READY) ∧
       cache out.2 !! (JStr sid, JInt n, "translation_status")
         = Some "READY").
Proof.
  intros out. subst out.
  destruct (qt_receive_cases qt data w)
    as [[e ->]|(sid & n & download & translation & Hrow & [->|[progress ->]])].
  - exists []. rewrite app_nil_r. by split_and!; [..|left].
  - eexists. split_and!; [reflexivity | done | by left].
  - eexists. split_and!.
    + unfold ready_world, after. cbn [snd log]. by rewrite <- app_assoc.
    + done.
    + right. eexists sid, n, download, _. split_and!; [done | done |..];
        cbn [snd after ready_world store cache cache_after foldl];
        apply lookup_insert_eq.
Qed.

(** X15.  Whatever the message and the outcome, [QtConsumer.receive] neither
    adds nor deletes a row of the store and never changes a
    [download_status]: a row keeps its value or gets its
    [translation_status] set to [READY]; and a Status Cache entry keeps its
    value or is a [translation_status] entry set to ["READY"]. *)
Theorem qt_receive_frame qt data w :
  let w' := (QtConsumer.receive encode_name int_of_str qt data w).2 in
  (∀ key,
     store w' !! key = store w !! key ∨
     ∃ download translation,
       store w !! key = Some (download, translation) ∧
       store w' !! key = Some (download, READY)) ∧
  (∀ m i f,
     cache w' !! (m, i, f) = cache w !! (m, i, f) ∨
     (f = "translation_status" ∧ cache w' !! (m, i, f) = Some "READY")).
Proof.
  intros w'. subst w'.
  destruct (qt_receive_cases qt data w)
    as [[e ->]|(sid & n & download & translation & Hrow & [->|[progress ->]])];
    [by split; intros; left|..];
    cbn [snd after ready_world store cache cache_after foldl]; split.
  all: try (intros key; destruct (decide (key = (sid, n))) as [->|Hne];
            [right; exists download, translation;
             by rewrite lookup_insert_eq
            |left; by rewrite lookup_insert_ne]).
  all: intros m i f;
       destruct (decide ((m, i, f) = (JStr sid, JInt n, "translation_status")))
         as [[= -> -> ->]|Hne];
       [right; by rewrite lookup_insert_eq
       |left; by rewrite lookup_insert_ne].
Qed.

(** What the short-circuit has done when it raised on the missing
    ["progress"]: the chapter is [READY] in the store and ["READY"] in the
    Status Cache, and no message is among the events added to the log. *)
Definition marked_ready_unpublished (qt : QtConsumer.t)
    (d : list (string * json)) (sid : string) (n : Z) (w : world) : Prop :=
  ∃ w' events download,
    QtConsumer.receive encode_name int_of_str qt (JDict d) w
      = (Raise (KeyError "progress"), w') ∧
    log w' = log w ++ events ∧
    store w' !! (sid, n) = Some (download, READY) ∧
    cache w' !! (JStr sid, JInt n, "translation_status") = Some "READY" ∧
    broadcasts events = [].

(** X13.  A message that names an existing chapter but lacks ["progress"]
    makes [QtConsumer.receive] raise [KeyError] after it saved and cached
    the chapter as ready: the status changed and no message was published. *)
Theorem qt_receive_without_progress
    qt d sid c n download translation w :
  dict_get "toonkor_id" d = Some (JStr sid) →
  dict_get "chapter" d = Some c →
  (∀ w, QtConsumer.py_int int_of_str c w = (Ok n, w)) →
  dict_get "progress" d = None →
  store w !! (sid, n) = Some (download, translation) →
  marked_ready_unpublished qt d sid n w.
Proof.
  intros Hid Hc Hint Hp Hrow.
  eexists (ready_world sid n download w), _, download.
  split_and!; [|reflexivity|apply lookup_insert_eq|apply lookup_insert_eq|done].
  unfold QtConsumer.receive.
  erewrite bind_ok; [|unfold py_getitem; by rewrite Hid].
  erewrite bind_ok; [|unfold py_getitem; by rewrite Hc].
  erewrite bind_ok; [|apply Hint].
  erewrite bind_ok; [|unfold objects_get; by rewrite Hrow].
  do 3 run_ok. erewrite bind_raise; [|unfold py_getitem; by rewrite Hp].
  unfold ready_world, after. cbn. by rewrite <- !app_assoc.
Qed.

(** X14.  A message that names a chapter the store does not hold makes
    [QtConsumer.receive] raise [DoesNotExist] before any effect. *)
Theorem qt_receive_unknown_chapter qt d sid c n w :
  dict_get "toonkor_id" d = Some (JStr sid) →
  dict_get "chapter" d = Some c →
  (∀ w, QtConsumer.py_int int_of_str c w = (Ok n, w)) →
  store w !! (sid, n) = None →
  QtConsumer.receive encode_name int_of_str qt (JDict d) w
    = (Raise DoesNotExist, w).
Proof.
  intros Hid Hc Hint Hrow. unfold QtConsumer.receive.
  erewrite bind_ok; [|unfold py_getitem; by rewrite Hid].
  erewrite bind_ok; [|unfold py_getitem; by rewrite Hc].
  erewrite bind_ok; [|apply Hint].
  erewrite bind_raise; [done|]. unfold objects_get. by rewrite Hrow.
Qed.

(** What receiving the same translation-ready message twice comes to: both
    runs return and publish the same message, and the second leaves the
    store and the Status Cache as the first left them. *)
Definition ready_twice (qt : QtConsumer.t) (d : list (string * json))
    (w : world) : Prop :=
  ∃ w1 w2 events1 events2,
    QtConsumer.receive encode_name int_of_str qt (JDict d) w = (Ok (), w1) ∧
    QtConsumer.receive encode_name int_of_str qt (JDict d) w1 = (Ok (), w2) ∧
    log w1 = log w ++ events1 ∧
    log w2 = log w1 ++ events2 ∧
    broadcasts events2 = broadcasts events1 ∧
    length (broadcasts events1) = 1%nat ∧
    store w2 = store w1 ∧
    cache w2 = cache w1.

(** X16.  The short-circuit is idempotent: a translation-ready message for
    an existing chapter that is received a second time publishes the same
    message again and changes neither the store nor the Status Cache. *)
Theorem qt_receive_twice qt d sid n progress download translation w :
  translation_ready int_of_str d sid n progress →
  store w !! (sid, n) = Some (download, translation) →
  ready_twice qt d w.
Proof.
  intros Hmsg Hrow. eexists _, _, _, _. split_and!.
  - by eapply qt_receive_ready.
  - eapply qt_receive_ready; [done|]. cbn [store]. apply lookup_insert_eq.
  - reflexivity.
  - reflexivity.
  - reflexivity.
  - reflexivity.
  - cbn [store]. apply insert_insert_eq.
  - cbn [cache]. apply insert_insert_eq.
Qed.
End QtFurther.

Lemma qt_receive_without_progress_witness :
  let d := [("toonkor_id", JStr "/abc"); ("chapter", JInt 5)] in
  dict_get "toonkor_id" d = Some (JStr "/abc") ∧
  dict_get "chapter" d = Some (JInt 5) ∧
  (∀ w, QtConsumer.py_int no_int_of_str (JInt 5) w = (Ok 5, w)) ∧
  dict_get "progress" d = None ∧
  store store_with_chapter_5 !! ("/abc", 5) = Some (READY, NONE) ∧
  marked_ready_unpublished encode_hyphen no_int_of_str
    (QtConsumer.mk "qt" "channel.0") d "/abc" 5 store_with_chapter_5.
Proof.
  split_and!; [reflexivity | reflexivity | intros; reflexivity
              | reflexivity | reflexivity |].
  apply (qt_receive_without_progress encode_hyphen no_int_of_str
           (QtConsumer.mk "qt" "channel.0")
           [("toonkor_id", JStr "/abc"); ("chapter", JInt 5)]
           "/abc" (JInt 5) 5 READY NONE store_with_chapter_5);
    first [reflexivity | intros; reflexivity].
Defined.

Lemma qt_receive_unknown_chapter_witness :
  let d := [("toonkor_id", JStr "/abc"); ("chapter", JInt 6)] in
  dict_get "toonkor_id" d = Some (JStr "/abc") ∧
  dict_get "chapter" d = Some (JInt 6) ∧
  (∀ w, QtConsumer.py_int no_int_of_str (JInt 6) w = (Ok 6, w)) ∧
  store store_with_chapter_5 !! ("/abc", 6) = None ∧
  QtConsumer.receive encode_hyphen no_int_of_str
    (QtConsumer.mk "qt" "channel.0") (JDict d) store_with_chapter_5
    = (Raise DoesNotExist, store_with_chapter_5).
Proof.
  split_and!; [reflexivity | reflexivity | intros; reflexivity
              | reflexivity |].
  apply (qt_receive_unknown_chapter encode_hyphen no_int_of_str
           (QtConsumer.mk "qt" "channel.0")
           [("toonkor_id", JStr "/abc"); ("chapter", JInt 6)]
           "/abc" (JInt 6) 6 store_with_chapter_5);
    first [reflexivity | intros; reflexivity].
Defined.

Lemma qt_receive_twice_witness :
  translation_ready no_int_of_str ready_message "/abc" 5
    (JDict [("current", JInt 1); ("total", JInt 2)]) ∧
  store store_with_chapter_5 !! ("/abc", 5) = Some (READY, NONE) ∧
  ready_twice encode_hyphen no_int_of_str (QtConsumer.mk "qt" "channel.0")
    ready_message store_with_chapter_5.
Proof.
  split_and!; [ready_message_is_ready | reflexivity |].
  apply (qt_receive_twice encode_hyphen no_int_of_str
           (QtConsumer.mk "qt" "channel.0") ready_message "/abc" 5
           (JDict [("current", JInt 1); ("total", JInt 2)]) READY NONE
           store_with_chapter_5);
    [ready_message_is_ready | reflexivity].
Defined.

(** * Joining and leaving groups *)

(** The members the channel layer holds for each group after the events
    [es]: [group_add] enters a channel into a group, [group_discard] takes
    it out. *)
Definition members (es : list event) : gset (string * string) :=
  foldl (λ s e,
    match e with
    | GroupAdd g c => s ∪ {[(g, c)]}
    | GroupDiscard g c => s ∖ {[(g, c)]}
    | _ => s
    end) ∅ es.

Definition is_membership (e : event) : bool :=
  match e with
  | GroupAdd _ _ | GroupDiscard _ _ => true
  | _ => false
  end.

Lemma members_snoc es e :
  members (es ++ [e]) =
  match e with
  | GroupAdd g c => members es ∪ {[(g, c)]}
  | GroupDiscard g c => members es ∖ {[(g, c)]}
  | _ => members es
  end.
Proof. unfold members. by rewrite foldl_app. Qed.

Lemma members_app_other es1 es2 :
  Forall (λ e, is_membership e = false) es2 →
  members (es1 ++ es2) = members es1.
Proof.
  induction es2 as [|e es2 IH] using rev_ind; intros H.
  - by rewrite app_nil_r.
  - apply Forall_app in H as [H He]. rewrite Forall_singleton in He.
    rewrite app_assoc, members_snoc, IH by done. by destruct e.
Qed.

Lemma cache_sets_not_membership es :
  Forall (λ e, is_cache_set e = true) es →
  Forall (λ e, is_membership e = false) es.
Proof. intros H. eapply Forall_impl; [exact H|]. by intros []. Qed.

Section Membership.
Variable encode_name : string → string.
Variable int_of_str : string → option Z.

(** What a connection comes to for the channel layer: [connect] returned
    the consumer [self] and entered the channel into its group, the channel
    is still in the group after a message was served, whatever the outcome,
    and [disconnect] took it out. *)
Definition joined_then_left (channel toonkor_id : string) (data : json)
    (w0 : world) : Prop :=
  ∃ self w1 w3,
    connect encode_name channel toonkor_id w0 = (Ok self, w1) ∧
    channel_name self = channel ∧
    manhwa_id self = "/" +:+ toonkor_id ∧
    (group_name self, channel) ∈ members (log w1) ∧
    (group_name self, channel) ∈ members (log (receive self data w1).2) ∧
    disconnect self (receive self data w1).2 = (Ok (), w3) ∧
    (group_name self, channel) ∉ members (log w3).

(** X17.  A [DownloadTranslateConsumer] that connects is a member of the
    group of its series, stays one while a message is served, and is no
    member any more after [disconnect]: [disconnect] discards the very
    group and channel that [connect] added. *)
Theorem connect_receive_disconnect channel toonkor_id data w0 :
  joined_then_left channel toonkor_id data w0.
Proof.
  unfold joined_then_left.
  set (g := group_prefix +:+ encode_name ("/" +:+ toonkor_id)).
  set (self := mk ("/" +:+ toonkor_id) g channel).
  set (w1 := mkWorld (store w0) (cache w0)
               (log w0 ++ [GroupAdd g channel; Accept channel])).
  assert (connect encode_name channel toonkor_id w0 = (Ok self, w1)) as Hc.
  { unfold connect. do 2 (erewrite bind_ok; [|reflexivity]).
    unfold w1. cbn. by rewrite <- app_assoc. }
  assert ((g, channel) ∈ members (log w1)) as H1.
  { unfold w1. cbn [log].
    change [GroupAdd g channel; Accept channel]
      with ([GroupAdd g channel] ++ [Accept channel]).
    rewrite app_assoc, members_snoc, members_snoc. set_solver. }
  destruct (receive_shape self data w1) as (events & Hr & writes & Hw & Hev).
  exists self, w1. eexists. rewrite Hr.
  assert (Forall (λ e, is_membership e = false) events) as Hevents.
  { destruct Hev as [->|(message & submission & -> & Hsub)].
    - by apply cache_sets_not_membership.
    - unfold batch_events. apply Forall_app.
      split; [by apply cache_sets_not_membership|].
      repeat constructor.
      by destruct Hsub as [(? & ? & -> & _)|(? & ? & ->)]. }
  split_and!; [done | done | done | done | | reflexivity |].
  - cbn [after log]. by rewrite members_app_other.
  - cbn [log]. rewrite members_snoc, elem_of_difference.
    intros [_ Hnot]. apply Hnot. by apply elem_of_singleton.
Qed.

(** X18.  When [encode_name] maps distinct series to distinct names, the
    consumers of two distinct series join distinct groups. *)
Theorem distinct_series_join_distinct_groups
    channel1 channel2 toonkor_id1 toonkor_id2 w1 w2 self1 self2 :
  (∀ a b, encode_name a = encode_name b → a = b) →
  toonkor_id1 ≠ toonkor_id2 →
  (connect encode_name channel1 toonkor_id1 w1).1 = Ok self1 →
  (connect encode_name channel2 toonkor_id2 w2).1 = Ok self2 →
  group_name self1 ≠ group_name self2.
Proof.
  intros Hinj Hne [= <-] [= <-]. cbn [group_name]. unfold group_prefix.
  intros Heq. simplify_eq/=. apply Hne. apply Hinj in Heq. by simplify_eq/=.
Qed.

Lemma sep_cons_ne s : String "/" s ≠ s.
Proof. induction s as [|c s IH]; [done|]. intros [= <- H]. by apply IH. Qed.

(** X19.  The series of a consumer is the URL segment with a slash before
    it: when [encode_name] maps distinct series to distinct names, a
    translation-ready message that names the bare URL segment is published
    to another group than the one the consumer of that segment joined. *)
Theorem bare_segment_misses_the_group
    channel toonkor_id w0 self w1 w group :
  (∀ a b, encode_name a = encode_name b → a = b) →
  connect encode_name channel toonkor_id w0 = (Ok self, w1) →
  QtConsumer.series_group encode_name (JStr toonkor_id) w = (Ok group, w) →
  group ≠ group_name self.
Proof.
  intros Hinj Hconnect [= <-]. unfold connect in Hconnect.
  do 2 (erewrite bind_ok in Hconnect; [|reflexivity]).
  injection Hconnect as <- <-. cbn [group_name]. unfold group_prefix.
  intros Heq. simplify_eq/=. apply Hinj in Heq.
  by eapply sep_cons_ne.
Qed.
End Membership.

(** A stand-in for [encode_name] that maps distinct series to distinct
    names. *)
Definition encode_same (s : string) : string := s.

Lemma distinct_series_join_distinct_groups_witness :
  let self1 := mk "/abc" (group_prefix +:+ "/abc") "channel.1" in
  let self2 := mk "/abd" (group_prefix +:+ "/abd") "channel.2" in
  (∀ a b, encode_same a = encode_same b → a = b) ∧
  "abc" ≠ "abd" ∧
  (connect encode_same "channel.1" "abc" empty_world).1 = Ok self1 ∧
  (connect encode_same "channel.2" "abd" empty_world).1 = Ok self2 ∧
  group_name self1 ≠ group_name self2.
Proof.
  split_and!; [intros a b H; exact H | discriminate | reflexivity
              | reflexivity |].
  apply (distinct_series_join_distinct_groups encode_same
           "channel.1" "channel.2" "abc" "abd" empty_world empty_world
           (mk "/abc" (group_prefix +:+ "/abc") "channel.1")
           (mk "/abd" (group_prefix +:+ "/abd") "channel.2"));
    [intros a b H; exact H | discriminate | reflexivity | reflexivity].
Defined.

Lemma bare_segment_misses_the_group_witness :
  let self := mk "/abc" (group_prefix +:+ "/abc") "channel.1" in
  let w1 :=
    mkWorld ∅ ∅ [GroupAdd (group_name self) "channel.1"; Accept "channel.1"] in
  (∀ a b, encode_same a = encode_same b → a = b) ∧
  connect encode_same "channel.1" "abc" empty_world = (Ok self, w1) ∧
  QtConsumer.series_group encode_same (JStr "abc") empty_world
    = (Ok (group_prefix +:+ "abc"), empty_world) ∧
  group_prefix +:+ "abc" ≠ group_name self.
Proof.
  split_and!; [intros a b H; exact H | reflexivity | reflexivity |].
  apply (bare_segment_misses_the_group encode_same "channel.1" "abc"
           empty_world
           (mk "/abc" (group_prefix +:+ "/abc") "channel.1")
           (mkWorld ∅ ∅
              [GroupAdd (group_prefix +:+ "/abc") "channel.1";
               Accept "channel.1"])
           empty_world (group_prefix +:+ "abc"));
    [intros a b H; exact H | reflexivity | reflexivity].
Defined.

(** * Further properties of the file handler *)

(** ** ASCII strings and the path operations *)

Lemma string_app_cons c a b : String c a +:+ b = String c (a +:+ b).
Proof. reflexivity. Qed.

Lemma string_app_nil_r a : a +:+ "" = a.
Proof. induction a as [|c a IH]; [done|]. by rewrite string_app_cons, IH. Qed.

Lemma string_app_assoc a b c : (a +:+ b) +:+ c = a +:+ (b +:+ c).
Proof.
  induction a as [|x a IH]; [done|]. by rewrite !string_app_cons, IH.
Qed.

Lemma string_forallb_app f a b :
  string_forallb f (a +:+ b) = string_forallb f a && string_forallb f b.
Proof.
  induction a as [|c a IH]; [done|].
  rewrite string_app_cons. simpl. by rewrite IH, andb_assoc.
Qed.

Lemma is_printable_is_ascii c :
  is_printable_char c = true → is_ascii_char c = true.
Proof.
  unfold is_printable_char, is_ascii_char. intros H. apply N.ltb_lt.
  apply orb_true_iff in H as [H|H]; apply andb_true_iff in H as [_ H];
    apply N.leb_le in H; lia.
Qed.

Lemma printable_only_isascii s : isascii (printable_only s) = true.
Proof.
  induction s as [|c s IH]; [done|]. unfold printable_only in *. simpl.
  destruct (is_printable_char c) eqn:Hc; [|done].
  unfold isascii in *. simpl. by rewrite is_printable_is_ascii, IH.
Qed.

(** [head + tail == p] for the two parts at the last separator. *)
Lemma split_after_last_sep_app p :
  (split_after_last_sep p).1 +:+ (split_after_last_sep p).2 = p.
Proof.
  induction p as [|c p IH]; [done|]. simpl.
  destruct (split_after_last_sep p) as [head tail]. simpl in IH.
  destruct head as [|h head]; simpl.
  - destruct (is_sep c); simpl; by rewrite <- IH.
  - by rewrite string_app_cons, IH.
Qed.

Lemma split_at_last_dot_app s stem ext :
  split_at_last_dot s = Some (stem, ext) → stem +:+ ext = s.
Proof.
  revert stem ext. induction s as [|c s IH]; [done|]. intros stem ext. simpl.
  destruct (split_at_last_dot s) as [[stem' ext']|].
  - intros [= <- <-]. by rewrite string_app_cons, (IH stem' ext').
  - destruct (is_dot c); [|done]. by intros [= <- <-].
Qed.

(** [root + ext == p] for [root, ext = os.path.splitext(p)]. *)
Lemma splitext_app p : (splitext p).1 +:+ (splitext p).2 = p.
Proof.
  unfold splitext. pose proof (split_after_last_sep_app p) as Hp.
  destruct (split_after_last_sep p) as [head tail]. simpl in Hp.
  destruct (split_at_last_dot tail) as [[stem ext]|] eqn:Hdot;
    [|apply string_app_nil_r].
  destruct (string_forallb is_dot stem); [apply string_app_nil_r|]. simpl.
  by rewrite string_app_assoc, (split_at_last_dot_app _ _ _ Hdot).
Qed.

Lemma isascii_app a b : isascii (a +:+ b) = isascii a && isascii b.
Proof. apply string_forallb_app. Qed.

Lemma basename_isascii p : isascii p = true → isascii (basename p) = true.
Proof.
  intros Hp. rewrite <- (split_after_last_sep_app p), isascii_app in Hp.
  by apply andb_prop in Hp as [_ Hp].
Qed.

Lemma splitext_isascii p :
  isascii p = true →
  isascii (splitext p).1 = true ∧ isascii (splitext p).2 = true.
Proof.
  intros Hp. rewrite <- (splitext_app p), isascii_app in Hp.
  by apply andb_prop in Hp.
Qed.

Lemma join_isascii a b :
  isascii a = true → isascii b = true → isascii (join a b) = true.
Proof.
  intros Ha Hb. unfold join. destruct (startswith_sep b); [done|].
  destruct (string_is_empty a || endswith_sep a).
  - by rewrite isascii_app, Ha, Hb.
  - by rewrite !isascii_app, Ha, Hb.
Qed.

Lemma str_of_nat_isascii n : isascii (str_of_nat n) = true.
Proof.
  unfold str_of_nat. generalize (Nat.to_uint n). intros d.
  induction d; simpl; done.
Qed.

(** ** The loop of [sanitize_and_copy_files] *)

(** The path under which a copy of [image_path], the [index]-th of the
    list, is made: the printable part of its directory, and in it the
    printable part of its name with [index] before the extension. *)
Definition sanitized_path (index : nat) (image_path : string) : string :=
  let name := printable_only image_path in
  let dir_name := printable_only (dirname image_path) in
  let '(base, ext) :=
    if string_is_empty (splitext (basename name)).2
    then (EmptyString, (splitext (basename name)).1)
    else ((splitext (basename name)).1, (splitext (basename name)).2) in
  join dir_name (base +:+ str_of_nat index +:+ ext).

(** The path under which a copy is made is ASCII, whatever the path and
    the index. *)
Lemma sanitized_path_isascii index image_path :
  isascii (sanitized_path index image_path) = true.
Proof.
  unfold sanitized_path.
  pose proof (printable_only_isascii image_path) as Hname.
  apply basename_isascii, splitext_isascii in Hname as [Hroot Hext].
  destruct (string_is_empty _); apply join_isascii;
    rewrite ?printable_only_isascii, ?isascii_app, ?str_of_nat_isascii,
      ?Hroot, ?Hext; done.
Qed.

Section FileHandlerFurther.
Variable fs : Type.
Variable makedirs : string → fs → bool * fs.
Variable copy : string → string → fs → copy_outcome * fs.
Variable mkdtemp : string → fs → option string * fs.
Variable extract_archive : string → string → fs → option (list string) * fs.

(** The body of the loop of [sanitize_and_copy_files]. *)
Definition sanitize_body (item : nat * string) : M (FileHandler.t fs) string :=
  let '(index, image_path) := item in
  if negb (isascii image_path) return M (FileHandler.t fs) string then
    let name := printable_only image_path in
    let dir_name := printable_only (dirname image_path) in
    FileHandler.os_makedirs fs makedirs dir_name;;
    let '(base, ext) :=
      if string_is_empty (splitext (basename name)).2
      then (EmptyString, (splitext (basename name)).1)
      else ((splitext (basename name)).1, (splitext (basename name)).2) in
    let sanitized_path := join dir_name (base +:+ str_of_nat index +:+ ext) in
    copied ← FileHandler.try_copy fs copy image_path sanitized_path;
    mret (if copied : bool then sanitized_path else image_path)
  else mret image_path.

Lemma sanitize_and_copy_files_loop paths :
  FileHandler.sanitize_and_copy_files fs makedirs copy paths
  = for_each sanitize_body (enumerate paths).
Proof. reflexivity. Qed.

(** The handler with another file system. *)
Definition with_disk (self : FileHandler.t fs) (d : fs) : FileHandler.t fs :=
  FileHandler.mk fs (FileHandler.file_paths fs self)
    (FileHandler.archive_info fs self) d.

Lemma with_disk_same self : with_disk self (FileHandler.disk fs self) = self.
Proof. by destruct self. Qed.

Lemma sanitize_body_ascii index path self :
  isascii path = true → sanitize_body (index, path) self = (Ok path, self).
Proof. intros Hp. unfold sanitize_body. by rewrite Hp. Qed.

Lemma sanitize_body_bare index path self :
  isascii path = false →
  string_is_empty (printable_only (dirname path)) = true →
  sanitize_body (index, path) self = (Raise OSError, self).
Proof.
  intros Hp Hdir. unfold sanitize_body. rewrite Hp. cbn [negb].
  erewrite bind_raise; [done|]. unfold FileHandler.os_makedirs.
  by rewrite Hdir.
Qed.

(** One iteration on a path that is not ASCII and names a directory. *)
Lemma sanitize_body_copy index path self :
  isascii path = false →
  string_is_empty (printable_only (dirname path)) = false →
  sanitize_body (index, path) self =
  let made := makedirs (printable_only (dirname path))
                (FileHandler.disk fs self) in
  if made.1 then
    let copied := copy path (sanitized_path index path) made.2 in
    (match copied.1 with
     | Copied => Ok (sanitized_path index path)
     | CopyIOError => Ok path
     | CopyRaised e => Raise e
     end,
     with_disk self copied.2)
  else (Raise OSError, with_disk self made.2).
Proof.
  intros Hp Hdir. unfold sanitize_body, sanitized_path. rewrite Hp.
  cbn [negb]. rewrite bind_unfold. unfold FileHandler.os_makedirs at 1.
  rewrite Hdir. cbv zeta.
  destruct (makedirs _ _) as [[|] d1]; cbn [fst snd]; [|done].
  destruct (string_is_empty (splitext (basename (printable_only path))).2);
    cbv beta iota zeta; rewrite bind_unfold;
    unfold FileHandler.try_copy at 1; cbn [FileHandler.disk];
    by destruct (copy _ _ d1) as [[| |e] d2].
Qed.

(** The loop when no [os.makedirs] call raises and every outcome of
    [shutil.copy] satisfies [C], which leaves out the exceptions that are
    not caught: an ASCII path is returned as it is, another one as its
    sanitized path or, when the copy failed, as it is. *)
Lemma sanitize_and_copy_files_results (C : copy_outcome → Prop) paths self :
  (∀ outcome, C outcome → copy_settles outcome = true) →
  (∀ name d, (makedirs name d).1 = true) →
  (∀ src dst d, C (copy src dst d).1) →
  forallb names_a_directory paths = true →
  ∃ res self',
    FileHandler.sanitize_and_copy_files fs makedirs copy paths self
      = (Ok res, self') ∧
    Forall2 (λ item r,
      if isascii item.2 then r = item.2
      else ∃ outcome, C outcome ∧
             r = match outcome with
                 | Copied => sanitized_path item.1 item.2
                 | _ => item.2
                 end)
      (enumerate paths) res.
Proof.
  intros HC Hmk Hcopy Hdirs. rewrite sanitize_and_copy_files_loop.
  unfold enumerate.
  assert (∀ i x, (@pair nat string i x).2 = x) as Hsnd by done.
  revert Hsnd. generalize (@pair nat string). revert self.
  induction paths as [|p l IH]; intros self f Hsnd.
  - eexists _, _. split; [reflexivity | constructor].
  - apply andb_prop in Hdirs as [Hp Hl]. cbn [imap for_each].
    pose proof (Hsnd 0%nat p) as Hf. destruct (f 0%nat p) as [index path].
    simpl in Hf. subst path.
    assert (∃ r self1,
      sanitize_body (index, p) self = (Ok r, self1) ∧
      (if isascii p then r = p
       else ∃ outcome, C outcome ∧
              r = match outcome with
                  | Copied => sanitized_path index p
                  | _ => p
                  end))
      as (r & self1 & Hr & Hrel).
    { unfold names_a_directory in Hp. destruct (isascii p) eqn:Ha.
      - eexists _, _. split; [by apply sanitize_body_ascii | done].
      - cbn [orb] in Hp. apply negb_true_iff in Hp.
        rewrite sanitize_body_copy by done. cbv zeta. rewrite Hmk.
        match goal with |- context [copy p ?dst ?d] =>
          pose proof (Hcopy p dst d) as Hout;
          pose proof (HC _ Hout) as Hsettles;
          destruct (copy p dst d) as [outcome d2]
        end.
        cbn [fst snd] in *.
        destruct outcome as [| |e]; [| |done];
          eexists _, _; (split; [reflexivity|]); eexists;
          (split; [exact Hout | reflexivity]). }
    destruct (IH Hl self1 (f ∘ S) (λ i x, Hsnd (S i) x))
      as (res & self2 & Hres & Hall).
    exists (r :: res), self2. split.
    + erewrite bind_ok by eassumption. by erewrite bind_ok by eassumption.
    + by constructor.
Qed.

Lemma snd_enumerate {A} (l : list A) : snd <$> enumerate l = l.
Proof.
  apply list_eq. intros i. unfold enumerate.
  rewrite list_lookup_fmap, list_lookup_imap. by destruct (l !! i).
Qed.

(** The loop on ASCII paths, from any index on. *)
Lemma for_each_sanitize_ascii (f : nat → string → nat * string) l self :
  (∀ i x, (f i x).2 = x) →
  forallb isascii l = true →
  for_each sanitize_body (imap f l) self = (Ok l, self).
Proof.
  revert f. induction l as [|p l IH]; intros f Hsnd Hl; [done|].
  apply andb_prop in Hl as [Hp Hl]. cbn [imap for_each].
  pose proof (Hsnd 0%nat p) as Hf. destruct (f 0%nat p) as [index path].
  simpl in Hf. subst path.
  erewrite bind_ok by (by apply sanitize_body_ascii).
  erewrite bind_ok; [done|]. apply IH; [|done]. intros i x. apply Hsnd.
Qed.

(** X20.  A list of ASCII paths is returned as it is, and neither the
    handler nor the file system is touched: no directory is made and no
    file is copied, whatever the file system would answer. *)
Theorem sanitize_and_copy_files_ascii paths self :
  forallb isascii paths = true →
  FileHandler.sanitize_and_copy_files fs makedirs copy paths self
    = (Ok paths, self).
Proof.
  intros Hl. rewrite sanitize_and_copy_files_loop. unfold enumerate.
  by apply for_each_sanitize_ascii.
Qed.

(** X21.  When every [shutil.copy] fails (and no [os.makedirs] call
    raises), the [IOError] is swallowed for each path and the list is
    returned with every path as it came. *)
Theorem sanitize_and_copy_files_copy_fails paths self :
  (∀ name d, (makedirs name d).1 = true) →
  (∀ src dst d, (copy src dst d).1 = CopyIOError) →
  forallb names_a_directory paths = true →
  ∃ self',
    FileHandler.sanitize_and_copy_files fs makedirs copy paths self
      = (Ok paths, self') ∧
    FileHandler.file_paths fs self' = FileHandler.file_paths fs self ∧
    FileHandler.archive_info fs self' = FileHandler.archive_info fs self.
Proof.
  intros Hmk Hcopy Hdirs.
  destruct (sanitize_and_copy_files_results (λ o, o = CopyIOError) paths self)
    as (res & self' & Hres & Hall); [by intros ? -> | done..|].
  destruct (sanitize_and_copy_files_pointwise fs makedirs copy paths self)
    as (res' & self'' & Hres' & _ & Hfp & Hai);
    [intros; apply Hmk | intros; by rewrite Hcopy | done|].
  rewrite Hres in Hres'. injection Hres' as <- <-.
  exists self'. split; [|done].
  assert (res = snd <$> enumerate paths) as Heq.
  { clear Hres. induction Hall as [|item r items res Hr _ IH]; [done|].
    rewrite fmap_cons, <- IH. f_equal.
    destruct (isascii item.2); [done|].
    by destruct Hr as (outcome & -> & ->). }
  by rewrite Hres, Heq, snd_enumerate.
Qed.

(** What [sanitize_and_copy_files] returns when every copy is made: ASCII
    paths only, which a second pass returns as they are without touching
    the file system. *)
Definition sanitized_to_ascii (paths : list string)
    (self : FileHandler.t fs) : Prop :=
  ∃ res self',
    FileHandler.sanitize_and_copy_files fs makedirs copy paths self
      = (Ok res, self') ∧
    length res = length paths ∧
    forallb isascii res = true ∧
    (∀ i p, paths !! i = Some p → isascii p = false →
       res !! i = Some (sanitized_path i p)) ∧
    FileHandler.sanitize_and_copy_files fs makedirs copy res self'
      = (Ok res, self').

(** X22.  When every [os.makedirs] and [shutil.copy] call succeeds, every
    path of the result is ASCII: a path that was not ASCII is replaced by
    the path its copy was made under, which is built from printable
    characters and the index; sanitizing the result again returns it
    unchanged. *)
Theorem sanitize_and_copy_files_copy_succeeds paths self :
  (∀ name d, (makedirs name d).1 = true) →
  (∀ src dst d, (copy src dst d).1 = Copied) →
  forallb names_a_directory paths = true →
  sanitized_to_ascii paths self.
Proof.
  intros Hmk Hcopy Hdirs.
  destruct (sanitize_and_copy_files_results (λ o, o = Copied) paths self)
    as (res & self' & Hres & Hall); [by intros ? -> | done..|].
  assert (forallb isascii res = true) as Hascii.
  { clear Hres. induction Hall as [|item r items res Hr _ IH]; [done|].
    simpl. rewrite IH, andb_true_r. destruct (isascii item.2) eqn:Ha.
    - by rewrite Hr.
    - destruct Hr as (outcome & -> & ->). apply sanitized_path_isascii. }
  exists res, self'. split_and!.
  - done.
  - apply Forall2_length in Hall. rewrite <- Hall. unfold enumerate.
    by rewrite length_imap.
  - done.
  - intros i p Hi Hp.
    assert (enumerate paths !! i = Some (i, p)) as Hitem.
    { unfold enumerate. by rewrite list_lookup_imap, Hi. }
    destruct (Forall2_lookup_l _ _ _ _ _ Hall Hitem) as (r & Hr & Hrel).
    simpl in Hrel. rewrite Hp in Hrel.
    by destruct Hrel as (outcome & -> & ->).
  - rewrite sanitize_and_copy_files_loop. unfold enumerate.
    by apply for_each_sanitize_ascii.
Qed.

(** X23.  The first path that is not ASCII and has no printable character
    in its directory name stops [sanitize_and_copy_files]: when the paths
    before it are ASCII, [os.makedirs('')] raises, no list is returned and
    nothing was done to the file system. *)
Theorem sanitize_and_copy_files_bare_path before path rest self :
  forallb isascii before = true →
  isascii path = false →
  string_is_empty (printable_only (dirname path)) = true →
  FileHandler.sanitize_and_copy_files fs makedirs copy
    (before ++ path :: rest) self
    = (Raise OSError, self).
Proof.
  intros Hbefore Hp Hdir. rewrite sanitize_and_copy_files_loop.
  unfold enumerate. rewrite imap_app. cbn [imap].
  eapply for_each_raise.
  - by apply for_each_sanitize_ascii.
  - by apply sanitize_body_bare.
Qed.
End FileHandlerFurther.

(** A file system on which no file can be copied. *)
Definition copy_fails (src dst : string) (d : unit)
    : copy_outcome * unit :=
  (CopyIOError, d).

Lemma sanitize_and_copy_files_ascii_witness :
  forallb isascii ["/tmp/a.png"; "b.jpg"] = true ∧
  FileHandler.sanitize_and_copy_files unit makedirs_succeeds copy_fails
    ["/tmp/a.png"; "b.jpg"] (FileHandler.init unit ())
    = (Ok ["/tmp/a.png"; "b.jpg"], FileHandler.init unit ()).
Proof.
  split; [reflexivity|].
  apply (sanitize_and_copy_files_ascii unit makedirs_succeeds copy_fails
           ["/tmp/a.png"; "b.jpg"] (FileHandler.init unit ())).
  reflexivity.
Defined.

Lemma sanitize_and_copy_files_copy_fails_witness :
  (∀ name d, (makedirs_succeeds name d).1 = true) ∧
  (∀ src dst d, (copy_fails src dst d).1 = CopyIOError) ∧
  forallb names_a_directory ["/tmp/é.png"; "a.png"] = true ∧
  ∃ self',
    FileHandler.sanitize_and_copy_files unit makedirs_succeeds copy_fails
      ["/tmp/é.png"; "a.png"] (FileHandler.init unit ())
      = (Ok ["/tmp/é.png"; "a.png"], self') ∧
    FileHandler.file_paths unit self' = [] ∧
    FileHandler.archive_info unit self' = [].
Proof.
  split_and!; [reflexivity..|].
  apply (sanitize_and_copy_files_copy_fails unit makedirs_succeeds copy_fails
           ["/tmp/é.png"; "a.png"] (FileHandler.init unit ()));
    reflexivity.
Defined.

Lemma sanitize_and_copy_files_copy_succeeds_witness :
  (∀ name d, (makedirs_succeeds name d).1 = true) ∧
  (∀ src dst d, (copy_succeeds src dst d).1 = Copied) ∧
  forallb names_a_directory ["/tmp/é.png"; "a.png"] = true ∧
  sanitized_to_ascii unit makedirs_succeeds copy_succeeds
    ["/tmp/é.png"; "a.png"] (FileHandler.init unit ()).
Proof.
  split_and!; [reflexivity..|].
  apply (sanitize_and_copy_files_copy_succeeds unit makedirs_succeeds
           copy_succeeds ["/tmp/é.png"; "a.png"] (FileHandler.init unit ()));
    reflexivity.
Defined.

Lemma sanitize_and_copy_files_bare_path_witness :
  forallb isascii ["a.png"] = true ∧
  isascii "日本/é.png" = false ∧
  string_is_empty (printable_only (dirname "日本/é.png")) = true ∧
  FileHandler.sanitize_and_copy_files unit makedirs_succeeds copy_succeeds
    (["a.png"] ++ "日本/é.png" :: ["b.png"]) (FileHandler.init unit ())
    = (Raise OSError, FileHandler.init unit ()).
Proof.
  split_and!; [reflexivity..|].
  apply (sanitize_and_copy_files_bare_path unit makedirs_succeeds
           copy_succeeds ["a.png"] "日本/é.png" ["b.png"]
           (FileHandler.init unit ())); reflexivity.
Defined.

(** ** [prepare_files] *)

Lemma concat_singletons {A} (l : list A) : concat ((λ p, [p]) <$> l) = l.
Proof.
  induction l as [|p l IH]; [done|]. rewrite fmap_cons. simpl. by rewrite IH.
Qed.

Section PrepareFiles.
Variable fs : Type.
Variable makedirs : string → fs → bool * fs.
Variable copy : string → string → fs → copy_outcome * fs.
Variable mkdtemp : string → fs → option string * fs.
Variable extract_archive : string → string → fs → option (list string) * fs.

Local Abbreviation handler := (FileHandler.t fs).
Local Abbreviation file_paths := (FileHandler.file_paths fs).
Local Abbreviation archive_info := (FileHandler.archive_info fs).
Local Abbreviation disk := (FileHandler.disk fs).
Local Abbreviation sanitize :=
  (FileHandler.sanitize_and_copy_files fs makedirs copy).
Local Abbreviation prepare_files :=
  (FileHandler.prepare_files fs makedirs copy mkdtemp extract_archive).

(** The images among some files: [f.lower().endswith(('.jpg', ...))]. *)
Definition images_of (files : list string) : list string :=
  filter (λ f, endswith_any (lower f) FileHandler.image_suffixes = true) files.

(** The body of the loop of [prepare_files]: the paths one path of the
    handler contributes. *)
Definition prepare_body (path : string) : M handler (list string) :=
  if endswith_any (lower path) FileHandler.archive_suffixes
  return M handler (list string) then
    let archive_dir := dirname path in
    temp_dir ← FileHandler.os_mkdtemp fs mkdtemp archive_dir;
    extracted_files ← FileHandler.os_extract_archive fs extract_archive
                        path temp_dir;
    let image_paths := images_of extracted_files in
    image_paths ← sanitize image_paths;
    FileHandler.archive_info_append fs
      (FileHandler.mkArchive path image_paths temp_dir);;
    mret image_paths
  else
    sanitized ← sanitize [path];
    path ← py_first sanitized;
    mret [path].

Lemma prepare_files_loop :
  prepare_files =
  (paths ← FileHandler.get_file_paths fs;
   per_path ← for_each prepare_body paths;
   FileHandler.set_file_paths fs (concat per_path);;
   FileHandler.get_file_paths fs).
Proof. reflexivity. Qed.

(** X24.  On a handler whose paths are ASCII and no archives,
    [prepare_files] returns the paths as they are and changes nothing, in
    the handler or in the file system. *)
Theorem prepare_files_ascii_plain self :
  forallb isascii (file_paths self) = true →
  forallb is_plain_path (file_paths self) = true →
  prepare_files self = (Ok (file_paths self), self).
Proof.
  intros Hascii Hplain. rewrite prepare_files_loop.
  erewrite bind_ok; [|reflexivity].
  assert (∀ l s, forallb isascii l = true → forallb is_plain_path l = true →
            for_each prepare_body l s = (Ok ((λ p, [p]) <$> l), s)) as Hloop.
  { clear. induction l as [|p l IH]; intros s Ha Hp; [done|].
    apply andb_prop in Ha as [Ha Hal]. apply andb_prop in Hp as [Hp Hpl].
    cbn [for_each]. erewrite bind_ok.
    2:{ unfold prepare_body. unfold is_plain_path in Hp.
        apply negb_true_iff in Hp. rewrite Hp.
        erewrite bind_ok.
        2:{ apply sanitize_and_copy_files_ascii. simpl. by rewrite Ha. }
        reflexivity. }
    erewrite bind_ok by (by apply IH). done. }
  erewrite bind_ok by (by apply Hloop).
  rewrite concat_singletons. by destruct self.
Qed.

(** What [prepare_files] has done on paths that are no archives: it
    returned, and set as the paths of the handler, a list as long as the one
    it had, with every ASCII path unchanged at its position; no archive was
    recorded. *)
Definition prepared_in_place (self : handler) : Prop :=
  ∃ res self',
    prepare_files self = (Ok res, self') ∧
    file_paths self' = res ∧
    length res = length (file_paths self) ∧
    (∀ i p, file_paths self !! i = Some p → isascii p = true →
       res !! i = Some p) ∧
    archive_info self' = archive_info self.

(** X25.  On paths that are no archives, when for the paths that are not
    ASCII no [os.makedirs] call raises and no [shutil.copy] call raises
    anything but the [IOError] that is caught, [prepare_files] takes
    [sanitize_and_copy_files([path])[0]] for each path without failing: the
    handler ends with as many paths as it had, every ASCII path at its
    position, and no archive recorded. *)
Theorem prepare_files_plain self :
  (∀ p d, p ∈ file_paths self → isascii p = false →
     (makedirs (printable_only (dirname p)) d).1 = true) →
  (∀ p dst d, p ∈ file_paths self → isascii p = false →
     copy_settles (copy p dst d).1 = true) →
  forallb names_a_directory (file_paths self) = true →
  forallb is_plain_path (file_paths self) = true →
  prepared_in_place self.
Proof.
  intros Hmk Hcopy Hdirs Hplain. unfold prepared_in_place.
  rewrite prepare_files_loop. erewrite bind_ok; [|reflexivity].
  assert (∀ l s,
    (∀ p d, p ∈ l → isascii p = false →
       (makedirs (printable_only (dirname p)) d).1 = true) →
    (∀ p dst d, p ∈ l → isascii p = false →
       copy_settles (copy p dst d).1 = true) →
    forallb names_a_directory l = true → forallb is_plain_path l = true →
    ∃ res s', for_each prepare_body l s = (Ok ((λ p, [p]) <$> res), s') ∧
      Forall2 (λ p r, isascii p = true → r = p) l res ∧
      archive_info s' = archive_info s) as Hloop.
  { clear. induction l as [|p l IH]; intros s Hmk Hcopy Hd Hp.
    - exists [], s. by split_and!; [|constructor|].
    - apply andb_prop in Hd as [Hd Hdl]. apply andb_prop in Hp as [Hp Hpl].
      assert (forallb names_a_directory [p] = true) as Hd1
        by (simpl; by rewrite Hd).
      destruct (sanitize_and_copy_files_pointwise fs makedirs copy [p] s)
        as (res1 & s1 & Hres1 & Hall1 & _ & Ha1);
        [intros q d ->%list_elem_of_singleton; apply Hmk; by left
        |intros q dst d ->%list_elem_of_singleton; apply Hcopy; by left
        |exact Hd1|].
      apply Forall2_cons_inv_l in Hall1 as (r & res' & Hr & Hnil & ->).
      apply Forall2_nil_inv_l in Hnil as ->.
      destruct (IH s1) as (res & s2 & Hrest & Hall & Ha2);
        [intros q d Hq; apply Hmk; by right
        |intros q dst d Hq; apply Hcopy; by right
        |exact Hdl | exact Hpl|].
      exists (r :: res), s2. split_and!.
      + cbn [for_each]. erewrite bind_ok.
        2:{ unfold prepare_body. unfold is_plain_path in Hp.
            apply negb_true_iff in Hp. rewrite Hp.
            erewrite bind_ok by eassumption. reflexivity. }
        by erewrite bind_ok by eassumption.
      + by constructor.
      + congruence. }
  destruct (Hloop (file_paths self) self Hmk Hcopy Hdirs Hplain)
    as (res & s' & Hres & Hall & Ha).
  erewrite bind_ok by eassumption.
  rewrite concat_singletons.
  exists res, (FileHandler.mk fs res (archive_info s') (disk s')).
  split_and!; [reflexivity | reflexivity | | | exact Ha].
  - symmetry. by eapply Forall2_length.
  - intros i p Hi Hp.
    destruct (Forall2_lookup_l _ _ _ _ _ Hall Hi) as (r & Hr & Himp).
    by rewrite Hr, (Himp Hp).
Qed.

(** X26.  An archive is extracted into a fresh directory next to it, and
    its images replace it among the paths of the handler: when the handler
    holds one archive and the extracted images have ASCII paths,
    [prepare_files] returns the extracted files that end like an image, in
    the order of extraction, and records the archive, these images and the
    directory. *)
Theorem prepare_files_archive self path temp_dir d1 files d2 :
  file_paths self = [path] →
  endswith_any (lower path) FileHandler.archive_suffixes = true →
  mkdtemp (dirname path) (disk self) = (Some temp_dir, d1) →
  extract_archive path temp_dir d1 = (Some files, d2) →
  forallb isascii (images_of files) = true →
  prepare_files self =
    (Ok (images_of files),
     FileHandler.mk fs (images_of files)
       (archive_info self
        ++ [FileHandler.mkArchive path (images_of files) temp_dir])
       d2).
Proof.
  intros Hpaths Harchive Htemp Hextract Hascii. rewrite prepare_files_loop.
  erewrite bind_ok; [|reflexivity]. rewrite Hpaths. cbn [for_each].
  erewrite bind_ok.
  2:{ erewrite bind_ok.
      2:{ unfold prepare_body. rewrite Harchive.
          erewrite bind_ok;
            [|unfold FileHandler.os_mkdtemp; rewrite Htemp; reflexivity].
          erewrite bind_ok;
            [|unfold FileHandler.os_extract_archive; cbn [FileHandler.disk];
              rewrite Hextract; reflexivity].
          erewrite bind_ok; [|by apply sanitize_and_copy_files_ascii].
          reflexivity. }
      reflexivity. }
  cbn. by rewrite app_nil_r.
Qed.

(** The paths of the handler are as they were and its record of archives
    has only grown. *)
Definition only_archives_added (s s' : handler) : Prop :=
  file_paths s' = file_paths s ∧ archive_info s `prefix_of` archive_info s'.

Definition keeps_paths {A} (m : M handler A) : Prop :=
  ∀ s, only_archives_added s (m s).2.

Lemma only_archives_added_refl s : only_archives_added s s.
Proof. by split. Qed.

Lemma only_archives_added_trans s1 s2 s3 :
  only_archives_added s1 s2 → only_archives_added s2 s3 →
  only_archives_added s1 s3.
Proof. intros [H1 P1] [H2 P2]. split; [congruence | by etrans]. Qed.

Lemma keeps_paths_ret {A} (a : A) : keeps_paths (mret a).
Proof. intros s. apply only_archives_added_refl. Qed.

Lemma keeps_paths_bind {A B} (m : M handler A) (f : A → M handler B) :
  keeps_paths m → (∀ a, keeps_paths (f a)) → keeps_paths (m ≫= f).
Proof.
  intros Hm Hf s. rewrite bind_unfold. specialize (Hm s).
  destruct (m s) as [[a|e] s1]; [|done].
  eapply only_archives_added_trans; [exact Hm | apply Hf].
Qed.

Lemma keeps_paths_for_each {A B} (body : A → M handler B) l :
  (∀ x, keeps_paths (body x)) → keeps_paths (for_each body l).
Proof.
  intros Hbody. induction l as [|x l IH]; [apply keeps_paths_ret|].
  cbn [for_each]. apply keeps_paths_bind; [apply Hbody|]. intros y.
  apply keeps_paths_bind; [apply IH|]. intros ys. apply keeps_paths_ret.
Qed.

Lemma keeps_paths_sanitize paths : keeps_paths (sanitize paths).
Proof.
  unfold FileHandler.sanitize_and_copy_files.
  apply keeps_paths_for_each. intros [index path].
  destruct (negb (isascii path)); [|apply keeps_paths_ret].
  apply keeps_paths_bind.
  - intros s. unfold FileHandler.os_makedirs.
    destruct (string_is_empty _); [apply only_archives_added_refl|].
    by destruct (makedirs _ _).
  - intros _. destruct (string_is_empty _); cbv beta iota zeta;
      (apply keeps_paths_bind; [|intros; apply keeps_paths_ret]);
      intros s; unfold FileHandler.try_copy;
      by destruct (copy _ _ _) as [[| |e] d].
Qed.

Lemma keeps_paths_prepare_body path : keeps_paths (prepare_body path).
Proof.
  unfold prepare_body. destruct (endswith_any _ _).
  - apply keeps_paths_bind.
    { intros s. unfold FileHandler.os_mkdtemp. by destruct (mkdtemp _ _). }
    intros temp_dir. apply keeps_paths_bind.
    { intros s. unfold FileHandler.os_extract_archive.
      by destruct (extract_archive _ _ _). }
    intros files. apply keeps_paths_bind; [apply keeps_paths_sanitize|].
    intros images. apply keeps_paths_bind; [|intros; apply keeps_paths_ret].
    intros s. split; [done|]. cbn. by apply prefix_app_r.
  - apply keeps_paths_bind; [apply keeps_paths_sanitize|].
    intros res. apply keeps_paths_bind; [|intros; apply keeps_paths_ret].
    intros s. destruct res; apply only_archives_added_refl.
Qed.

(** X27.  Whatever the file system answers, [prepare_files] replaces the
    paths of the handler only when it returns, and then by the list it
    returns; when it raises, the handler has the paths it had.  Archives
    recorded before are never dropped. *)
Theorem prepare_files_replaces_paths_on_return self :
  let out := prepare_files self in
  archive_info self `prefix_of` archive_info out.2 ∧
  match out.1 with
  | Ok res => file_paths out.2 = res
  | Raise _ => file_paths out.2 = file_paths self
  end.
Proof.
  intros out. subst out. rewrite prepare_files_loop.
  erewrite bind_ok; [|reflexivity].
  pose proof (keeps_paths_for_each prepare_body (file_paths self)
                keeps_paths_prepare_body self) as [Hp Ha].
  rewrite bind_unfold.
  destruct (for_each prepare_body (file_paths self) self) as [[per|e] s1];
    cbn [fst snd] in *; [|done].
  split; [exact Ha | reflexivity].
Qed.
End PrepareFiles.

(** A file system that makes the temporary directory ["/books/tmp1"] and
    extracts a page and a note from any archive. *)
Definition mkdtemp_tmp1 (dir : string) (d : unit) : option string * unit :=
  (Some "/books/tmp1", d).
Definition extract_page_and_note (path dir : string) (d : unit)
    : option (list string) * unit :=
  (Some ["/books/tmp1/page1.PNG"; "/books/tmp1/notes.txt"], d).

Lemma prepare_files_ascii_plain_witness :
  let self := FileHandler.mk unit ["/tmp/a.png"; "b.jpg"] [] () in
  forallb isascii (FileHandler.file_paths unit self) = true ∧
  forallb is_plain_path (FileHandler.file_paths unit self) = true ∧
  FileHandler.prepare_files unit makedirs_succeeds copy_succeeds
    mkdtemp_tmp1 extract_page_and_note self
    = (Ok (FileHandler.file_paths unit self), self).
Proof.
  split_and!; [reflexivity..|].
  apply (prepare_files_ascii_plain unit makedirs_succeeds copy_succeeds
           mkdtemp_tmp1 extract_page_and_note
           (FileHandler.mk unit ["/tmp/a.png"; "b.jpg"] [] ()));
    reflexivity.
Defined.

Lemma prepare_files_plain_witness :
  let self := FileHandler.mk unit ["/tmp/é.png"; "b.jpg"] [] () in
  (∀ p d, p ∈ FileHandler.file_paths unit self → isascii p = false →
     (makedirs_succeeds (printable_only (dirname p)) d).1 = true) ∧
  (∀ p dst d, p ∈ FileHandler.file_paths unit self → isascii p = false →
     copy_settles (copy_succeeds p dst d).1 = true) ∧
  forallb names_a_directory (FileHandler.file_paths unit self) = true ∧
  forallb is_plain_path (FileHandler.file_paths unit self) = true ∧
  prepared_in_place unit makedirs_succeeds copy_succeeds mkdtemp_tmp1
    extract_page_and_note self.
Proof.
  split_and!;
    [intros; reflexivity | intros; reflexivity | reflexivity | reflexivity |].
  apply (prepare_files_plain unit makedirs_succeeds copy_succeeds
           mkdtemp_tmp1 extract_page_and_note
           (FileHandler.mk unit ["/tmp/é.png"; "b.jpg"] [] ()));
    [intros; reflexivity | intros; reflexivity | reflexivity | reflexivity].
Defined.

Lemma prepare_files_archive_witness :
  let self := FileHandler.mk unit ["/books/one.CBZ"] [] () in
  let files := ["/books/tmp1/page1.PNG"; "/books/tmp1/notes.txt"] in
  FileHandler.file_paths unit self = ["/books/one.CBZ"] ∧
  endswith_any (lower "/books/one.CBZ") FileHandler.archive_suffixes = true ∧
  mkdtemp_tmp1 (dirname "/books/one.CBZ") (FileHandler.disk unit self)
    = (Some "/books/tmp1", ()) ∧
  extract_page_and_note "/books/one.CBZ" "/books/tmp1" () = (Some files, ()) ∧
  forallb isascii (images_of files) = true ∧
  images_of files = ["/books/tmp1/page1.PNG"] ∧
  FileHandler.prepare_files unit makedirs_succeeds copy_succeeds
    mkdtemp_tmp1 extract_page_and_note self =
    (Ok (images_of files),
     FileHandler.mk unit (images_of files)
       (FileHandler.archive_info unit self
        ++ [FileHandler.mkArchive "/books/one.CBZ" (images_of files)
              "/books/tmp1"])
       ()).
Proof.
  split_and!; [reflexivity..|].
  apply (prepare_files_archive unit makedirs_succeeds copy_succeeds
           mkdtemp_tmp1 extract_page_and_note
           (FileHandler.mk unit ["/books/one.CBZ"] [] ())
           "/books/one.CBZ" "/books/tmp1" ()
           ["/books/tmp1/page1.PNG"; "/books/tmp1/notes.txt"] ());
    reflexivity.
Defined.
